(** * Monte Carlo core of the IRL dashboard (src/app.py)

    A shallow embedding of [sample_normal_dist] and [monte_carlo_simulation]
    together with the properties the specification states about them, and
    of the code around them: the selection of methods on the page and its
    Run button, [group_methods_by_type], the file watcher's [on_modified]
    and the reading of the workbook in [extract_methods_from_excel].

    Numbers are the ones Python and NumPy compute with: IEEE 754 binary64,
    here Rocq's primitive [float].  A Python [int], a Python [float] and a
    NumPy [float64] scalar are kept apart because they divide differently
    by zero. *)

From Stdlib Require Import ZArith List Lia Bool Ascii.
From Stdlib Require Import Floats.
From stdpp Require Import base option list gmap strings.

Import ListNotations.

(** ** Python values and exceptions *)

(** The three kinds of number [monte_carlo_simulation] handles. *)
Inductive pyval : Type :=
| PyInt (z : Z)            (* int: the literal 0 of lines 125 and 154 *)
| PyFloat (x : float)      (* float *)
| NpFloat (x : float).     (* numpy.float64 *)

(** The exceptions the simulation code can raise. *)
Inductive exn : Type :=
| KeyError
| UnboundLocalError
| ZeroDivisionError.

Inductive result (A : Type) : Type :=
| Ok (a : A)
| Raise (e : exn).
Arguments Ok {A} a.
Arguments Raise {A} e.

(** [float(n)] for the small non-negative integers that occur (the literal
    0, and [len] of a list). *)
Definition float_of_Z (z : Z) : float := PrimFloat.of_uint63 (Uint63.of_Z z).

Definition float_of_pyval (v : pyval) : float :=
  match v with
  | PyInt z => float_of_Z z
  | PyFloat x => x
  | NpFloat x => x
  end.

(** ** A state and exception monad

    The one piece of global state the simulation touches is NumPy's random
    generator.  Its state is the number of draws made so far. *)

Definition M (A : Type) : Type := nat -> result (A * nat).

#[global] Instance M_ret : MRet M := fun A a pos => Ok (a, pos).
#[global] Instance M_bind : MBind M := fun A B f m pos =>
  match m pos with
  | Ok (a, pos') => f a pos'
  | Raise e => Raise e
  end.

Definition raise {A : Type} (e : exn) : M A := fun _ => Raise e.

(** [for x in xs: acc = body x acc] *)
Fixpoint for_each {A B : Type} (body : A -> B -> M B) (xs : list A) (acc : B) : M B :=
  match xs with
  | [] => mret acc
  | x :: xs' => acc' ← body x acc; for_each body xs' acc'
  end.

(** [for _ in range(n): acc = body acc] *)
Fixpoint for_range {B : Type} (n : nat) (body : B -> M B) (acc : B) : M B :=
  match n with
  | O => mret acc
  | S n' => acc' ← body acc; for_range n' body acc'
  end.

(** ** Data: rows of the database and the weight dictionaries *)

Module Method.
Record t : Type := mk { method_id : Z }.
End Method.

#[global] Instance method_eq_dec : EqDecision Method.t.
Proof. solve_decision. Defined.

(** A row of [method_technology_services] with its eight bounds set, as
    [populate_data] writes every row.  (The columns are nullable; a row
    with a NULL bound, on which line 116 raises TypeError, is not
    modelled.) *)
Module Service.
Record t : Type := mk {
  method_id : Z;
  maturity_min : float;
  maturity_max : float;
  cost_min : float;
  cost_max : float;
  interoperability_min : float;
  interoperability_max : float;
  integration_min : float;
  integration_max : float
}.
End Service.

(** [session.query(MethodTechnologyService).filter_by(method_id=mid).first()]
    over the rows of the table in the order the database returns them;
    [None] when no row matches. *)
Definition query_first (table : list Service.t) (mid : Z) : option Service.t :=
  find (fun s => Z.eqb (Service.method_id s) mid) table.

(** The dictionary built at lines 104-109 for one selected method: the four
    slider values, in insertion order. *)
Record Weights : Type := mkWeights {
  cost_w : float;
  maturity_w : float;
  integration_w : float;
  interoperability_w : float
}.

(** [sum(weights.values())]: left to right from the integer 0.  (CPython
    from 3.12 on compensates the rounding of a float sum; on the weights
    used in the examples below the two agree.) *)
Definition sum_values (w : Weights) : float :=
  (float_of_Z 0 + cost_w w + maturity_w w + integration_w w + interoperability_w w)%float.

(** [method_weights[k]] *)
Definition getitem (method_weights : gmap Z Weights) (k : Z) : M Weights :=
  match method_weights !! k with
  | Some w => mret w
  | None => raise KeyError
  end.

(** Reading a local variable that may not have been assigned yet. *)
Definition load_local {A : Type} (v : option A) : M A :=
  match v with
  | Some a => mret a
  | None => raise UnboundLocalError
  end.

(** [a / d] for a Python float [d].  A numpy.float64 on the left divides as
    IEEE 754 does (a zero divisor gives an infinity or a NaN, and a warning);
    an int or a float on the left raises on a zero divisor. *)
Definition truediv (a : pyval) (d : float) : M pyval :=
  match a with
  | NpFloat x => mret (NpFloat (x / d))
  | _ => if (d =? 0)%float then raise ZeroDivisionError
         else mret (PyFloat (float_of_pyval a / d))
  end.

(** [np.clip(x, lo, hi)] on a scalar; a NaN passes through. *)
Definition np_clip (x lo hi : float) : float :=
  if (x <? lo)%float then lo else if (hi <? x)%float then hi else x.

(** [np.array(xs)]: an integer array when every element is an int, a
    float64 array otherwise (also for the empty list). *)
Inductive ndarray : Type :=
| IntArray (l : list Z)
| FloatArray (l : list float).

Definition is_int (v : pyval) : bool :=
  match v with PyInt _ => true | _ => false end.

Definition int_of_pyval (v : pyval) : Z :=
  match v with PyInt z => z | _ => 0%Z end.

Definition np_array (xs : list pyval) : ndarray :=
  match xs with
  | [] => FloatArray []
  | _ :: _ =>
      if forallb is_int xs then IntArray (map int_of_pyval xs)
      else FloatArray (map float_of_pyval xs)
  end.

Definition array_length (a : ndarray) : nat :=
  match a with
  | IntArray l => length l
  | FloatArray l => length l
  end.

(** ** The simulation *)

Section Simulation.

(** [normal loc scale k] is what [np.random.normal(loc, scale)] returns when
    it is the [k]-th draw made from the seeded generator. *)
Variable normal : float -> float -> nat -> float.

(** The rows of [method_technology_services]. *)
Variable table : list Service.t.

Definition np_random_normal (loc scale : float) : M float :=
  fun pos => Ok (normal loc scale pos, S pos).

Definition std_dev_default : float := 0.5%float.

(** Lines 112-117. *)
Definition sample_normal_dist (min_val max_val std_dev : float) : M float :=
  let mean_val := ((min_val + max_val) / 2)%float in
  x ← np_random_normal mean_val std_dev;
  mret (np_clip x 0 9).

(** The value the [pos]-th draw gives to a parameter with bounds
    [min_val], [max_val] at the default standard deviation. *)
Definition sampled (min_val max_val : float) (pos : nat) : float :=
  np_clip (normal ((min_val + max_val) / 2)%float std_dev_default pos) 0 9.

(** Lines 139-144. *)
Definition weighted_score_of (weights : Weights)
    (cost_score maturity_score integration_score interoperability_score : float) : float :=
  (cost_w weights * cost_score +
   maturity_w weights * maturity_score +
   integration_w weights * integration_score +
   interoperability_w weights * interoperability_score)%float.

(** Lines 130-144 for a method that has a service row: four samples, then
    the weights, then the weighted score. *)
Definition score_method (method_weights : gmap Z Weights) (method : Method.t)
    (service : Service.t) : M (Weights * float) :=
  cost_score ← sample_normal_dist (Service.cost_min service) (Service.cost_max service) std_dev_default;
  maturity_score ← sample_normal_dist (Service.maturity_min service) (Service.maturity_max service) std_dev_default;
  integration_score ← sample_normal_dist (Service.integration_min service) (Service.integration_max service) std_dev_default;
  interoperability_score ← sample_normal_dist (Service.interoperability_min service) (Service.interoperability_max service) std_dev_default;
  weights ← getitem method_weights (Method.method_id method);
  mret (weights, weighted_score_of weights cost_score maturity_score integration_score interoperability_score).

(** The body of the inner loop, lines 127-147, on the locals [total_irl] and
    [weights] ([None]: not assigned yet). *)
Definition method_body (method_weights : gmap Z Weights) (method : Method.t)
    (locals : pyval * option Weights) : M (pyval * option Weights) :=
  match query_first table (Method.method_id method) with
  | Some service =>
      '(weights, weighted_score) ← score_method method_weights method service;
      mret (NpFloat (float_of_pyval (fst locals) + weighted_score), Some weights)
  | None => mret locals
  end.

(** The body of the outer loop, lines 125-154, on the locals [irl_scores] and
    [weights]. *)
Definition trial_body (selected_methods : list Method.t) (method_weights : gmap Z Weights)
    (locals : list pyval * option Weights) : M (list pyval * option Weights) :=
  '(total_irl, weights) ← for_each (method_body method_weights) selected_methods (PyInt 0, snd locals);
  match selected_methods with
  | _ :: _ =>
      w ← load_local weights;
      let normalization_factor :=
        (sum_values w * float_of_Z (Z.of_nat (length selected_methods)))%float in
      score ← truediv total_irl normalization_factor;
      mret (fst locals ++ [score], weights)
  | [] => mret (fst locals ++ [PyInt 0], weights)
  end.

(** Lines 119-156. *)
Definition monte_carlo_simulation (selected_methods : list Method.t)
    (method_weights : gmap Z Weights) (n_simulations : Z) : M ndarray :=
  '(irl_scores, _) ← for_range (Z.to_nat n_simulations)
                        (trial_body selected_methods method_weights) ([], None);
  mret (np_array irl_scores).

(** *** What the loops compute, in closed form *)

Definition has_service (m : Method.t) : Prop :=
  is_Some (query_first table (Method.method_id m)).

#[global] Instance has_service_dec (m : Method.t) : Decision (has_service m) :=
  is_Some_dec _.

(** The methods the inner loop does not skip, in bundle order. *)
Definition processed (selected_methods : list Method.t) : list Method.t :=
  filter has_service selected_methods.

(** The weighted score of a method whose draws start at [pos]. *)
Definition service_total (w : Weights) (s : Service.t) (pos : nat) : float :=
  weighted_score_of w
    (sampled (Service.cost_min s) (Service.cost_max s) pos)
    (sampled (Service.maturity_min s) (Service.maturity_max s) (1 + pos))
    (sampled (Service.integration_min s) (Service.integration_max s) (2 + pos))
    (sampled (Service.interoperability_min s) (Service.interoperability_max s) (3 + pos)).

Definition method_total (method_weights : gmap Z Weights) (m : Method.t) (pos : nat) : float :=
  match query_first table (Method.method_id m), method_weights !! Method.method_id m with
  | Some s, Some w => service_total w s pos
  | _, _ => 0%float
  end.

(** The weighted totals of the processed methods [ps] of one trial whose
    draws start at [pos]: each method takes four draws. *)
Fixpoint weighted_totals (method_weights : gmap Z Weights) (ps : list Method.t)
    (pos : nat) : list float :=
  match ps with
  | [] => []
  | m :: ps' => method_total method_weights m pos :: weighted_totals method_weights ps' (4 + pos)
  end.

(** The locals [total_irl] and [weights] once the inner loop has run over
    the processed methods [ps], from their values before it. *)
Definition total_after (method_weights : gmap Z Weights) (ps : list Method.t)
    (pos : nat) (total_irl : pyval) : pyval :=
  match ps with
  | [] => total_irl
  | _ :: _ =>
      NpFloat (fold_left PrimFloat.add (weighted_totals method_weights ps pos)
                 (float_of_pyval total_irl))
  end.

Definition weights_after (method_weights : gmap Z Weights) (ps : list Method.t)
    (weights : option Weights) : option Weights :=
  match last ps with
  | Some m => method_weights !! Method.method_id m
  | None => weights
  end.

(** Every processed method has an entry in [method_weights]. *)
Definition weights_supplied (method_weights : gmap Z Weights)
    (selected_methods : list Method.t) : Prop :=
  Forall (fun m => is_Some (method_weights !! Method.method_id m))
         (processed selected_methods).

#[global] Instance weights_supplied_dec (method_weights : gmap Z Weights)
    (selected_methods : list Method.t) :
  Decision (weights_supplied method_weights selected_methods) :=
  Forall_dec _ _.

(** [total_irl] after the additions of lines 125 and 147. *)
Definition float_sum (totals : list float) : float :=
  fold_left PrimFloat.add totals (float_of_Z 0).

(** The score line 152 appends when the last-processed method has weights
    [w]. *)
Definition normalized (totals : list float) (w : Weights) (method_count : nat) : float :=
  (float_sum totals / (sum_values w * float_of_Z (Z.of_nat method_count)))%float.

(** The scores of [n] successive trials whose draws start at [pos]. *)
Fixpoint trial_scores (method_weights : gmap Z Weights) (selected_methods : list Method.t)
    (w : Weights) (n : nat) (pos : nat) : list float :=
  match n with
  | O => []
  | S n' =>
      normalized (weighted_totals method_weights (processed selected_methods) pos) w
                 (length selected_methods)
      :: trial_scores method_weights selected_methods w n'
           (4 * length (processed selected_methods) + pos)
  end.

End Simulation.

(** ** Draws held fixed per trial, method and parameter

    [key t mid c loc scale] is the value of [np.random.normal(loc, scale)]
    reserved for parameter number [c] (0 cost, 1 maturity, 2 integration,
    3 interoperability) of method [mid] in trial [t].  [keyed_normal key
    order] is the generator that deals these values to a run that processes
    the methods [order], four consecutive draws per method and trial. *)
Definition keyed_normal (key : nat -> Z -> nat -> float -> float -> float)
    (order : list Method.t) : float -> float -> nat -> float :=
  fun loc scale pos =>
    let per_trial := (4 * length order)%nat in
    let slot := (pos mod per_trial)%nat in
    match order !! (slot / 4)%nat with
    | Some m => key (pos / per_trial)%nat (Method.method_id m) (slot mod 4)%nat loc scale
    | None => loc
    end.

(** The weighted total of method [m] in trial [t] under [key]. *)
Definition keyed_total (key : nat -> Z -> nat -> float -> float -> float)
    (table : list Service.t) (method_weights : gmap Z Weights) (t : nat) (m : Method.t) : float :=
  method_total (fun loc scale c => key t (Method.method_id m) c loc scale)
               table method_weights m 0.

(** ** The selection of methods and the Run button (lines 91-109, 179-180)

    The state of the page's widgets, read through their keys: the checkbox
    [method_<id>], the four sliders [cost_<id>], [maturity_<id>],
    [integration_<id>], [interoperability_<id>], and the button.  Streamlit
    refuses two widgets with one key, so the methods listed must have
    distinct ids (the table's primary key). *)
Record widgets : Type := mkWidgets {
  checkbox : Z -> bool;
  cost_slider : Z -> float;
  maturity_slider : Z -> float;
  integration_slider : Z -> float;
  interoperability_slider : Z -> float;
  run_button : bool
}.

(** The dictionary of lines 104-109 for the method with id [mid]. *)
Definition slider_weights (ui : widgets) (mid : Z) : Weights :=
  mkWeights (cost_slider ui mid) (maturity_slider ui mid)
            (integration_slider ui mid) (interoperability_slider ui mid).

(** The body of the loop of lines 97-109 on [selected_methods] and
    [method_weights]. *)
Definition select_body (ui : widgets) (acc : list Method.t * gmap Z Weights)
    (method : Method.t) : list Method.t * gmap Z Weights :=
  if checkbox ui (Method.method_id method)
  then (fst acc ++ [method],
        <[ Method.method_id method := slider_weights ui (Method.method_id method) ]> (snd acc))
  else acc.

(** Lines 93-109. *)
Definition select_methods (ui : widgets) (all_methods : list Method.t)
    : list Method.t * gmap Z Weights :=
  fold_left (select_body ui) all_methods ([], ∅).

Definition n_simulations_default : Z := 1000.

(** Lines 179-180: the scores, when the button is pressed and something is
    selected. *)
Definition run_clicked (normal : float -> float -> nat -> float) (table : list Service.t)
    (ui : widgets) (all_methods : list Method.t) : M (option ndarray) :=
  let '(selected_methods, method_weights) := select_methods ui all_methods in
  if run_button ui && match selected_methods with [] => false | _ :: _ => true end
  then scores ← monte_carlo_simulation normal table selected_methods method_weights
                  n_simulations_default;
       mret (Some scores)
  else mret None.

(** ** Methods by type (lines 28-36) *)

(** The columns of a row of [methods] that the page reads. *)
Module MethodRow.
Record t : Type := mk {
  method_id : Z;
  name : option string;
  method_type : option string;
  maturity : option string
}.
End MethodRow.

#[global] Instance method_row_eq_dec : EqDecision MethodRow.t.
Proof. solve_decision. Defined.

(** A Python dict with string keys, as the list of its items in insertion
    order. *)
Fixpoint dict_get {V : Type} (d : list (string * V)) (k : string) : option V :=
  match d with
  | [] => None
  | (k', v) :: d' => if decide (k' = k) then Some v else dict_get d' k
  end.

(** [d[k].append(x)] *)
Fixpoint dict_append_to {A : Type} (d : list (string * list A)) (k : string) (x : A)
    : list (string * list A) :=
  match d with
  | [] => []
  | (k', l) :: d' =>
      if decide (k' = k) then (k', l ++ [x]) :: d' else (k', l) :: dict_append_to d' k x
  end.

Section MethodsByType.

(** [str.strip] *)
Variable strip : string -> string.

(** Line 32: an absent or empty type counts as "Uncategorized". *)
Definition type_key (method : MethodRow.t) : string :=
  match MethodRow.method_type method with
  | Some s => if decide (s = "") then "Uncategorized" else strip s
  | None => "Uncategorized"
  end.

(** Lines 32-35. *)
Definition group_body (methods_by_type : list (string * list MethodRow.t))
    (method : MethodRow.t) : list (string * list MethodRow.t) :=
  let method_type := type_key method in
  let methods_by_type :=
    match dict_get methods_by_type method_type with
    | None => methods_by_type ++ [(method_type, [])]
    | Some _ => methods_by_type
    end in
  dict_append_to methods_by_type method_type method.

Definition group_methods_by_type (methods : list MethodRow.t)
    : list (string * list MethodRow.t) :=
  fold_left group_body methods [].

(** The methods of [methods] whose type is [k], in their order. *)
Definition of_type (k : string) (methods : list MethodRow.t) : list MethodRow.t :=
  filter (fun m => type_key m = k) methods.

End MethodsByType.

(** The distinct elements of a list, each at its first occurrence. *)
Fixpoint first_occurrences (l : list string) : list string :=
  match l with
  | [] => []
  | x :: l' => x :: filter (fun y => y <> x) (first_occurrences l')
  end.

(** [str.strip] on text without blanks other than spaces. *)
Fixpoint strip_left (s : string) : string :=
  match s with
  | String " "%char s' => strip_left s'
  | _ => s
  end.

Definition strip_spaces (s : string) : string :=
  String.rev (strip_left (String.rev (strip_left s))).

(** ** The file watcher (src/file_monitor.py, lines 15-46) *)

(** [s.endswith(suffix)] *)
Definition ends_with (s suffix : string) : bool :=
  String.prefix (String.rev suffix) (String.rev s).

Module Handler.
Record t : Type := mk { file_path : string; last_trigger_time : float }.
End Handler.

Definition debounce_interval : float := 5%float.

Section FileMonitor.

(** [os.path.abspath] *)
Variable abspath : string -> string.

(** [__init__], lines 19-21. *)
Definition new_handler (file_path : string) : Handler.t :=
  Handler.mk (abspath file_path) (float_of_Z 0).

(** [on_modified], lines 23-46, for an event on [src_path] when the clock
    reads [current_time]; the boolean tells whether [process_file] was
    called. *)
Definition on_modified (self : Handler.t) (src_path : string) (current_time : float)
    : Handler.t * bool :=
  if ends_with src_path "~$" || negb (ends_with src_path ".xlsx") then (self, false)
  else if decide (abspath src_path = Handler.file_path self) then
    if (debounce_interval <? current_time - Handler.last_trigger_time self)%float
    then (Handler.mk (Handler.file_path self) current_time, true)
    else (self, false)
  else (self, false).

(** The handler after a sequence of events, and the clock readings at which
    it called [process_file]. *)
Fixpoint handle_events (self : Handler.t) (events : list (string * float))
    : Handler.t * list float :=
  match events with
  | [] => (self, [])
  | (src_path, current_time) :: events' =>
      let '(self', called) := on_modified self src_path current_time in
      let '(self'', times) := handle_events self' events' in
      (self'', if called then current_time :: times else times)
  end.

End FileMonitor.

(** Each reading is more than the debounce interval after the one before
    it, starting from [prev]. *)
Fixpoint spaced (prev : float) (times : list float) : Prop :=
  match times with
  | [] => True
  | t :: times' => (debounce_interval <? t - prev)%float = true /\ spaced t times'
  end.

(** ** Reading the methods from the workbook (src/database_setup.py, lines 66-120) *)

(** A cell as pandas hands it over: missing (None or NaN), a string, or a
    value of another type (a number, a date), which has no [strip]. *)
Inductive cell : Type :=
| Null
| Text (s : string)
| Other.

(** The four cells of a row that the extraction reads. *)
Module Row.
Record t : Type := mk {
  task_code : cell;
  method_name : cell;
  method_type : cell;
  maturity : cell
}.
End Row.

Module Sheet.
Record t : Type := mk { name : string; columns : list string; rows : list Row.t }.
End Sheet.

(** The dictionary appended at lines 108-113. *)
Module MethodData.
Record t : Type := mk {
  task_code : string;
  name : string;
  method_type : string;
  maturity : string
}.
End MethodData.

Definition required_columns : list string :=
  ["Associated to DECODE Task"; "Name of the method or technique";
   "Method type"; "Method maturity"]%string.

(** [pd.isnull] *)
Definition isnull (c : cell) : bool :=
  match c with Null => true | _ => false end.

Section Extraction.

Variable strip : string -> string.

(** [c.strip()]; [None] stands for the AttributeError of a value that is
    not a string. *)
Definition cell_strip (c : cell) : option string :=
  match c with
  | Text s => Some (strip s)
  | _ => None
  end.

(** [c.strip() if pd.notnull(c) else default], lines 105-106. *)
Definition clean (c : cell) (default : string) : option string :=
  if negb (isnull c) then cell_strip c else Some default.

(** The body of the loop over rows, lines 95-114, on [methods_data]. *)
Definition extract_row (methods_data : list MethodData.t) (row : Row.t)
    : option (list MethodData.t) :=
  if isnull (Row.task_code row) || isnull (Row.method_name row) then Some methods_data
  else
    method_type ← clean (Row.method_type row) "Uncategorized";
    maturity ← clean (Row.maturity row) "TRL 5";
    task_code ← cell_strip (Row.task_code row);
    name ← cell_strip (Row.method_name row);
    Some (methods_data ++ [MethodData.mk task_code name method_type maturity]).

Fixpoint extract_rows (methods_data : list MethodData.t) (rows : list Row.t)
    : option (list MethodData.t) :=
  match rows with
  | [] => Some methods_data
  | row :: rows' => methods_data' ← extract_row methods_data row; extract_rows methods_data' rows'
  end.

(** A sheet the extraction reads: named "Methods T..." and holding the
    four required columns. *)
Definition relevant (sheet : Sheet.t) : bool :=
  String.prefix "Methods T" (Sheet.name sheet) &&
  forallb (fun col => bool_decide (col ∈ Sheet.columns sheet)) required_columns.

(** The body of the loop over sheets, lines 79-114. *)
Definition extract_sheet (methods_data : list MethodData.t) (sheet : Sheet.t)
    : option (list MethodData.t) :=
  if String.prefix "Methods T" (Sheet.name sheet) then
    if negb (forallb (fun col => bool_decide (col ∈ Sheet.columns sheet)) required_columns)
    then Some methods_data
    else extract_rows methods_data (Sheet.rows sheet)
  else Some methods_data.

Fixpoint extract_sheets (methods_data : list MethodData.t) (sheets : list Sheet.t)
    : option (list MethodData.t) :=
  match sheets with
  | [] => Some methods_data
  | sheet :: sheets' =>
      methods_data' ← extract_sheet methods_data sheet; extract_sheets methods_data' sheets'
  end.

(** Lines 66-120.  [None] as the workbook: opening or reading it raised.
    Any exception inside the [try] gives the empty list. *)
Definition extract_methods_from_excel (workbook : option (list Sheet.t)) : list MethodData.t :=
  match workbook with
  | None => []
  | Some sheets => default [] (extract_sheets [] sheets)
  end.

(** A row at which the loop raises: it is not skipped, and one of its four
    cells is neither missing nor a string. *)
Definition is_other (c : cell) : bool :=
  match c with Other => true | _ => false end.

Definition row_raises (row : Row.t) : bool :=
  negb (isnull (Row.task_code row) || isnull (Row.method_name row)) &&
  (is_other (Row.task_code row) || is_other (Row.method_name row) ||
   is_other (Row.method_type row) || is_other (Row.maturity row)).

(** What a row that is neither skipped nor raising contributes. *)
Definition row_data (row : Row.t) : option MethodData.t :=
  match Row.task_code row, Row.method_name row with
  | Text t, Text n =>
      method_type ← clean (Row.method_type row) "Uncategorized";
      maturity ← clean (Row.maturity row) "TRL 5";
      Some (MethodData.mk (strip t) (strip n) method_type maturity)
  | _, _ => None
  end.

(** The rows of the sheets that are read, in workbook order, and what
    they contribute when none raises. *)
Definition sheet_data (sheet : Sheet.t) : list MethodData.t :=
  if relevant sheet then omap row_data (Sheet.rows sheet) else [].

Definition no_row_raises (sheets : list Sheet.t) : Prop :=
  Forall (fun sheet => relevant sheet = true ->
                       Forall (fun row => row_raises row = false) (Sheet.rows sheet)) sheets.

End Extraction.

(** ** Concrete inputs *)

(** A generator whose every standard normal variate is 0: each draw is its
    own mean. *)
Definition normal_at_mean : float -> float -> nat -> float :=
  fun loc scale _ => (loc + scale * 0)%float.

Definition service_2_4 (mid : Z) : Service.t :=
  Service.mk mid 2 4 2 4 2 4 2 4.

Definition uniform_weights (x : float) : Weights := mkWeights x x x x.

(** Two methods with a service row each; method 1 has all weights 1,
    method 2 all weights 2; method 3 has weights but no service row. *)
Definition demo_table : list Service.t := [service_2_4 1; service_2_4 2].

Definition demo_weights : gmap Z Weights :=
  <[ 3%Z := uniform_weights 1 ]>
    (<[ 2%Z := uniform_weights 2 ]> (<[ 1%Z := uniform_weights 1 ]> ∅)).

Definition demo_bundle : list Method.t := [Method.mk 1; Method.mk 2].

(** Draws that differ by method and parameter: the mean plus
    [scale * (mid + c)]. *)
Definition key_shift : nat -> Z -> nat -> float -> float -> float :=
  fun _ mid c loc scale => (loc + scale * float_of_Z (mid + Z.of_nat c))%float.

(** A generator whose draws depend on its state. *)
Definition normal_ramp : float -> float -> nat -> float :=
  fun loc scale k => (loc + scale * (float_of_Z (Z.of_nat (k mod 3)) - 1))%float.

(** Four methods with a service row; the first three weigh cost only, by
    0.1, 0.1 and 0.6, the last by 0.5. *)
Definition cost_only (x : float) : Weights := mkWeights x 0 0 0.

Definition table_4 : list Service.t :=
  [service_2_4 1; service_2_4 2; service_2_4 3; service_2_4 4].

Definition weights_4 : gmap Z Weights :=
  <[ 4%Z := cost_only 0.5 ]>
    (<[ 3%Z := cost_only 0x1.3333333333333p-1 ]>
       (<[ 2%Z := cost_only 0x1.999999999999ap-4 ]>
          (<[ 1%Z := cost_only 0x1.999999999999ap-4 ]> ∅))).

Definition zero_weights : gmap Z Weights := <[ 1%Z := uniform_weights 0 ]> ∅.

(** Three methods on the page; the first and the third are ticked. *)
Definition demo_ui : widgets :=
  mkWidgets (fun mid => bool_decide (mid <> 2%Z)) (fun _ => 1%float) (fun _ => 0.5%float)
            (fun _ => 2%float) (fun _ => 0%float) true.

Definition demo_methods : list Method.t := [Method.mk 1; Method.mk 2; Method.mk 3].

Definition demo_rows : list MethodRow.t :=
  [MethodRow.mk 1 (Some "a") (Some "Model ") (Some "TRL 4");
   MethodRow.mk 2 (Some "b") None (Some "TRL 5");
   MethodRow.mk 3 (Some "c") (Some " Model") None;
   MethodRow.mk 4 (Some "d") (Some "") None;
   MethodRow.mk 5 (Some "e") (Some "Test") None].

Definition demo_workbook : list Sheet.t :=
  [Sheet.mk "Readme" [] [Row.mk Other Other Other Other];
   Sheet.mk "Methods T1" required_columns
     [Row.mk (Text " T1.1 ") (Text "CFD model") (Text "Model ") Null;
      Row.mk Null (Text "heading") Null Null;
      Row.mk (Text "T1.2") (Text "Stack test") Null (Text "TRL 7")];
   Sheet.mk "Methods T2" ["Method type"]%string [Row.mk (Text "T2.1") (Text "x") Other Null]].

(** A generator whose every draw is 7, whatever the mean asked for. *)
Definition normal_seven : float -> float -> nat -> float := fun _ _ _ => 7%float.

(** * Properties *)

(** ** The monad *)

Lemma bind_Ok {A B : Type} (m : M A) (f : A -> M B) (pos pos' : nat) (a : A) :
  m pos = Ok (a, pos') -> (m ≫= f) pos = f a pos'.
Proof. intros H. unfold mbind, M_bind. now rewrite H. Qed.

Lemma bind_Raise {A B : Type} (m : M A) (f : A -> M B) (pos : nat) (e : exn) :
  m pos = Raise e -> (m ≫= f) pos = Raise e.
Proof. intros H. unfold mbind, M_bind. now rewrite H. Qed.

Lemma bind_inv {A B : Type} (m : M A) (f : A -> M B) (pos pos' : nat) (b : B) :
  (m ≫= f) pos = Ok (b, pos') ->
  exists a p, m pos = Ok (a, p) /\ f a p = Ok (b, pos').
Proof.
  unfold mbind, M_bind. destruct (m pos) as [[a p]|e]; [|discriminate].
  intros H. now exists a, p.
Qed.

(** Two computations that agree step by step agree when sequenced. *)
Lemma bind_ext {A B : Type} (m1 m2 : M A) (f1 f2 : A -> M B) (pos : nat) :
  m1 pos = m2 pos -> (forall a p, f1 a p = f2 a p) ->
  (m1 ≫= f1) pos = (m2 ≫= f2) pos.
Proof.
  intros Hm Hf. unfold mbind, M_bind. rewrite Hm.
  destruct (m2 pos) as [[a p]|e]; [apply Hf | reflexivity].
Qed.

(** ** The sampler and one method *)

Lemma sample_normal_dist_eq normal (min_val max_val std_dev : float) (pos : nat) :
  sample_normal_dist normal min_val max_val std_dev pos =
  Ok (np_clip (normal ((min_val + max_val) / 2)%float std_dev pos) 0 9, S pos).
Proof. reflexivity. Qed.

Lemma score_method_Ok normal mw (m : Method.t) (s : Service.t) (w : Weights) (pos : nat) :
  mw !! Method.method_id m = Some w ->
  score_method normal mw m s pos = Ok ((w, service_total normal w s pos), (4 + pos)%nat).
Proof.
  intros Hw. unfold score_method.
  repeat (erewrite bind_Ok; [|apply sample_normal_dist_eq]).
  unfold getitem. rewrite Hw. reflexivity.
Qed.

Lemma score_method_KeyError normal mw (m : Method.t) (s : Service.t) (pos : nat) :
  mw !! Method.method_id m = None ->
  score_method normal mw m s pos = Raise KeyError.
Proof.
  intros Hw. unfold score_method.
  repeat (erewrite bind_Ok; [|apply sample_normal_dist_eq]).
  unfold getitem. rewrite Hw. reflexivity.
Qed.

Lemma method_body_skip normal table mw (m : Method.t) locals (pos : nat) :
  ¬ has_service table m ->
  method_body normal table mw m locals pos = Ok (locals, pos).
Proof.
  unfold has_service, method_body. intros H.
  destruct (query_first table (Method.method_id m)) as [s|]; [|reflexivity].
  exfalso. apply H. eauto.
Qed.

Lemma method_body_Ok normal table mw (m : Method.t) (w : Weights) total_irl wv (pos : nat) :
  has_service table m ->
  mw !! Method.method_id m = Some w ->
  method_body normal table mw m (total_irl, wv) pos =
  Ok ((NpFloat (float_of_pyval total_irl + method_total normal table mw m pos), Some w),
      (4 + pos)%nat).
Proof.
  unfold has_service, method_body, method_total. intros [s Hs] Hw. rewrite Hs, Hw.
  erewrite bind_Ok; [|apply score_method_Ok, Hw]. reflexivity.
Qed.

(** ** The inner loop *)

Lemma processed_cons_True table (m : Method.t) (ms : list Method.t) :
  has_service table m -> processed table (m :: ms) = m :: processed table ms.
Proof. intros H. unfold processed. now rewrite filter_cons_True. Qed.

Lemma processed_cons_False table (m : Method.t) (ms : list Method.t) :
  ¬ has_service table m -> processed table (m :: ms) = processed table ms.
Proof. intros H. unfold processed. now rewrite filter_cons_False. Qed.

Lemma total_after_cons normal table mw (m : Method.t) (ps : list Method.t) (pos : nat) total_irl :
  total_after normal table mw (m :: ps) pos total_irl =
  total_after normal table mw ps (4 + pos)
    (NpFloat (float_of_pyval total_irl + method_total normal table mw m pos)).
Proof. destruct ps; reflexivity. Qed.

Lemma weights_after_cons mw (m : Method.t) (ps : list Method.t) (w : Weights) wv :
  mw !! Method.method_id m = Some w ->
  weights_after mw (m :: ps) wv = weights_after mw ps (Some w).
Proof.
  intros Hw. unfold weights_after. destruct ps as [|p ps]; [exact Hw|].
  rewrite last_cons_cons. destruct (last (p :: ps)) eqn:E; [reflexivity|].
  now apply last_None in E.
Qed.

Lemma for_each_methods normal table mw (ms : list Method.t) :
  weights_supplied table mw ms ->
  forall total_irl wv pos,
    for_each (method_body normal table mw) ms (total_irl, wv) pos =
    Ok ((total_after normal table mw (processed table ms) pos total_irl,
         weights_after mw (processed table ms) wv),
        (4 * length (processed table ms) + pos)%nat).
Proof.
  unfold weights_supplied.
  induction ms as [|m ms IH]; intros Hall total_irl wv pos; [reflexivity|].
  cbn [for_each]. destruct (decide (has_service table m)) as [Hs|Hs].
  - rewrite processed_cons_True in * by exact Hs.
    apply Forall_cons in Hall as [[w Hw] Hall].
    erewrite bind_Ok; [|apply method_body_Ok; eassumption].
    rewrite IH by exact Hall.
    rewrite total_after_cons, (weights_after_cons _ _ _ w) by exact Hw.
    replace (4 * length (m :: processed table ms) + pos)%nat
      with (4 * length (processed table ms) + (4 + pos))%nat by (cbn [length]; lia).
    reflexivity.
  - rewrite processed_cons_False in * by exact Hs.
    erewrite bind_Ok; [|apply method_body_skip; exact Hs].
    now apply IH.
Qed.

(** A bundle none of whose methods has a service row leaves the locals as
    they were and draws nothing. *)
Lemma for_each_all_skipped normal table mw (ms : list Method.t) locals (pos : nat) :
  processed table ms = [] ->
  for_each (method_body normal table mw) ms locals pos = Ok (locals, pos).
Proof.
  revert locals pos. induction ms as [|m ms IH]; intros locals pos Hp; [reflexivity|].
  cbn [for_each]. destruct (decide (has_service table m)) as [Hs|Hs].
  - rewrite processed_cons_True in Hp by exact Hs. discriminate.
  - rewrite processed_cons_False in Hp by exact Hs.
    erewrite bind_Ok; [|apply method_body_skip; exact Hs]. now apply IH.
Qed.

(** ** One trial *)

Lemma trial_body_processed normal table mw (ms : list Method.t) (m : Method.t) (w : Weights)
    locals (pos : nat) :
  last (processed table ms) = Some m ->
  mw !! Method.method_id m = Some w ->
  weights_supplied table mw ms ->
  trial_body normal table ms mw locals pos =
  Ok ((fst locals ++
         [NpFloat (normalized (weighted_totals normal table mw (processed table ms) pos) w
                              (length ms))],
       Some w),
      (4 * length (processed table ms) + pos)%nat).
Proof.
  intros Hlast Hw Hall. unfold trial_body.
  erewrite bind_Ok; [|apply for_each_methods, Hall].
  unfold weights_after. rewrite Hlast, Hw.
  destruct ms as [|m0 ms]; [discriminate|].
  cbn [load_local]. unfold total_after.
  destruct (processed table (m0 :: ms)) as [|p ps] eqn:Hp; [discriminate|].
  reflexivity.
Qed.

Lemma trial_body_empty normal table mw locals (pos : nat) :
  trial_body normal table [] mw locals pos = Ok ((fst locals ++ [PyInt 0], snd locals), pos).
Proof. reflexivity. Qed.

Lemma trial_body_unbound normal table mw (ms : list Method.t) scores (pos : nat) :
  ms <> [] -> processed table ms = [] ->
  trial_body normal table ms mw (scores, None) pos = Raise UnboundLocalError.
Proof.
  intros Hne Hp. unfold trial_body.
  erewrite bind_Ok; [|apply for_each_all_skipped, Hp].
  now destruct ms.
Qed.

(** Whatever a trial over a non-empty bundle appends is a float, and it
    appends exactly one score. *)
Lemma trial_body_inv normal table mw (ms : list Method.t) locals (pos : nat) scores' wv' pos' :
  trial_body normal table ms mw locals pos = Ok ((scores', wv'), pos') ->
  exists x, scores' = fst locals ++ [x] /\ (is_int x = true -> ms = []).
Proof.
  unfold trial_body. intros H.
  apply bind_inv in H as ([total_irl wv] & p & _ & H).
  destruct ms as [|m ms].
  - injection H as <- _ _. now exists (PyInt 0).
  - apply bind_inv in H as (w & p1 & _ & H).
    apply bind_inv in H as (score & p2 & Hdiv & H).
    injection H as <- _ _. exists score. split; [reflexivity|].
    intros Hint. unfold truediv in Hdiv.
    destruct total_irl; try (destruct (_ =? _)%float; [discriminate|]);
      injection Hdiv as <- _; discriminate.
Qed.

(** ** The whole run *)

Lemma np_array_floats (xs : list float) : np_array (map NpFloat xs) = FloatArray xs.
Proof.
  destruct xs as [|x xs]; [reflexivity|].
  cbn [map np_array forallb is_int andb float_of_pyval]. do 2 f_equal.
  induction xs as [|y ys IH]; [reflexivity|]. cbn [map float_of_pyval]. now rewrite IH.
Qed.

Lemma np_array_length (xs : list pyval) : array_length (np_array xs) = length xs.
Proof.
  destruct xs as [|x xs]; [reflexivity|]. unfold np_array.
  destruct (forallb is_int (x :: xs)); cbn [array_length]; now rewrite length_map.
Qed.

Lemma trial_scores_length normal table mw ms w (n pos : nat) :
  length (trial_scores normal table mw ms w n pos) = n.
Proof. revert pos. induction n as [|n IH]; intros pos; cbn; [reflexivity|now rewrite IH]. Qed.

Lemma for_range_processed normal table mw (ms : list Method.t) (m : Method.t) (w : Weights) :
  last (processed table ms) = Some m ->
  mw !! Method.method_id m = Some w ->
  weights_supplied table mw ms ->
  forall (n : nat) scores wv pos, exists wv',
    for_range n (trial_body normal table ms mw) (scores, wv) pos =
    Ok ((scores ++ map NpFloat (trial_scores normal table mw ms w n pos), wv'),
        (n * (4 * length (processed table ms)) + pos)%nat).
Proof.
  intros Hlast Hw Hall. induction n as [|n IH]; intros scores wv pos.
  - exists wv. cbn. now rewrite app_nil_r.
  - cbn [for_range].
    erewrite bind_Ok; [|eapply trial_body_processed; eassumption].
    cbn [fst].
    destruct (IH (scores ++ [NpFloat (normalized
                 (weighted_totals normal table mw (processed table ms) pos) w (length ms))])
                 (Some w) (4 * length (processed table ms) + pos)%nat) as [wv' ->].
    exists wv'. cbn [trial_scores map]. rewrite <- app_assoc. cbn [app].
    replace (S n * (4 * length (processed table ms)) + pos)%nat
      with (n * (4 * length (processed table ms)) + (4 * length (processed table ms) + pos))%nat
      by lia.
    reflexivity.
Qed.

Lemma simulation_processed normal table mw (ms : list Method.t) (m : Method.t) (w : Weights)
    (n : Z) (pos : nat) :
  last (processed table ms) = Some m ->
  mw !! Method.method_id m = Some w ->
  weights_supplied table mw ms ->
  monte_carlo_simulation normal table ms mw n pos =
  Ok (FloatArray (trial_scores normal table mw ms w (Z.to_nat n) pos),
      (Z.to_nat n * (4 * length (processed table ms)) + pos)%nat).
Proof.
  intros Hlast Hw Hall. unfold monte_carlo_simulation.
  destruct (for_range_processed normal table mw ms m w Hlast Hw Hall (Z.to_nat n) [] None pos)
    as [wv' Hrun].
  erewrite bind_Ok; [|exact Hrun]. cbn [app]. now rewrite np_array_floats.
Qed.

Lemma for_range_length normal table mw (ms : list Method.t) (n : nat) :
  forall locals pos scores' wv' pos',
    for_range n (trial_body normal table ms mw) locals pos = Ok ((scores', wv'), pos') ->
    length scores' = (n + length (fst locals))%nat.
Proof.
  induction n as [|n IH]; intros locals pos scores' wv' pos' H.
  - injection H as -> _. reflexivity.
  - cbn [for_range] in H. apply bind_inv in H as ([s1 w1] & p1 & Htrial & H).
    apply IH in H. apply trial_body_inv in Htrial as (x & -> & _).
    rewrite H. cbn [fst]. rewrite length_app. cbn. lia.
Qed.

(** ** Floating-point facts *)

Lemma SFcompare_antisym (x y : spec_float) :
  SFcompare y x = match SFcompare x y with Some c => Some (CompOpp c) | None => None end.
Proof.
  destruct x as [sx|sx| |sx mx ex], y as [sy|sy| |sy my ey]; cbn;
    try reflexivity; try (destruct sx; reflexivity); try (destruct sy; reflexivity);
    try (destruct sx, sy; reflexivity).
  pose proof (Pos.compare_cont_antisym mx my Eq) as Hm. cbn in Hm.
  destruct sx, sy; try reflexivity;
    rewrite (Z.compare_antisym ex ey); destruct (ex ?= ey)%Z; cbn; try reflexivity;
    rewrite <- Hm; now destruct (Pos.compare_cont Eq mx my).
Qed.




Lemma leb_true_ltb_false (x y : float) :
  (y <=? x)%float = true -> (x <? y)%float = false.
Proof.
  rewrite FloatAxioms.ltb_spec, FloatAxioms.leb_spec. unfold SFltb, SFleb.
  rewrite (SFcompare_antisym (Prim2SF x) (Prim2SF y)).
  now destruct (SFcompare (Prim2SF x) (Prim2SF y)) as [[]|].
Qed.

Lemma above_9_not_below_0 (x : float) :
  (9 <? x)%float = true -> (x <? 0)%float = false.
Proof.
  rewrite !FloatAxioms.ltb_spec. unfold SFltb.
  remember (Prim2SF 9) as nine eqn:E9. vm_compute in E9. subst nine.
  change (Prim2SF 0) with (S754_zero false).
  destruct (Prim2SF x) as [s|s| |s m e]; try destruct s; cbn; try discriminate; reflexivity.
Qed.

(** Dividing by [0 * y] never gives a finite number. *)
Lemma div_zero_times_not_finite (x y : float) :
  is_finite (x / (0 * y))%float = false.
Proof.
  assert (Hd : Prim2SF (0 * y)%float = S754_nan \/
               exists s, Prim2SF (0 * y)%float = S754_zero s).
  { rewrite FloatAxioms.mul_spec. change (Prim2SF 0) with (S754_zero false).
    destruct (Prim2SF y) as [s|s| |s m e]; cbn; eauto. }
  assert (Hr : Prim2SF (x / (0 * y))%float = S754_nan \/
               exists s, Prim2SF (x / (0 * y))%float = S754_infinity s).
  { rewrite FloatAxioms.div_spec. destruct Hd as [-> | [s ->]];
      destruct (Prim2SF x) as [sx|sx| |sx mx ex]; cbn; eauto. }
  unfold is_finite, is_nan, is_infinity. rewrite !FloatAxioms.eqb_spec, FloatAxioms.abs_spec.
  change (Prim2SF infinity) with (S754_infinity false).
  destruct Hr as [-> | [[] ->]]; reflexivity.
Qed.

(** ** A run that returns has processed a method and found all weights *)

Lemma method_body_KeyError normal table mw (m : Method.t) locals (pos : nat) :
  has_service table m ->
  mw !! Method.method_id m = None ->
  method_body normal table mw m locals pos = Raise KeyError.
Proof.
  unfold has_service, method_body. intros [s Hs] Hw. rewrite Hs.
  erewrite bind_Raise; [reflexivity|]. now apply score_method_KeyError.
Qed.

Lemma for_each_Ok_supplied normal table mw (ms : list Method.t) :
  forall locals pos r,
    for_each (method_body normal table mw) ms locals pos = Ok r ->
    weights_supplied table mw ms.
Proof.
  unfold weights_supplied.
  induction ms as [|m ms IH]; intros locals pos r H; [constructor|].
  cbn [for_each] in H. destruct r as [r pos'].
  apply bind_inv in H as (a & p & Hm & H). apply IH in H.
  destruct (decide (has_service table m)) as [Hs|Hs].
  - rewrite processed_cons_True by exact Hs. constructor; [|exact H].
    destruct (mw !! Method.method_id m) as [w|] eqn:Hw; [eauto|].
    rewrite method_body_KeyError in Hm by assumption. discriminate.
  - now rewrite processed_cons_False by exact Hs.
Qed.

Lemma trial_body_Ok_inv normal table mw (ms : list Method.t) scores (pos : nat) r :
  ms <> [] ->
  trial_body normal table ms mw (scores, None) pos = Ok r ->
  weights_supplied table mw ms /\
  exists m w, last (processed table ms) = Some m /\ mw !! Method.method_id m = Some w.
Proof.
  intros Hne H. unfold trial_body in H. destruct r as [r pos'].
  apply bind_inv in H as ([total_irl wv] & p & Hloop & H).
  pose proof (for_each_Ok_supplied _ _ _ _ _ _ _ Hloop) as Hall.
  split; [exact Hall|].
  rewrite for_each_methods in Hloop by exact Hall. injection Hloop as _ Hwv _.
  destruct ms as [|m0 ms]; [done|].
  apply bind_inv in H as (w & p1 & Hload & _).
  destruct wv as [w'|]; [|discriminate]. unfold weights_after in Hwv.
  destruct (last (processed table (m0 :: ms))) as [m|]; [|discriminate].
  now exists m, w'.
Qed.

Lemma trial_scores_lookup normal table mw (ms : list Method.t) (w : Weights) (n k : nat) :
  forall pos, (k < n)%nat ->
    trial_scores normal table mw ms w n pos !! k =
    Some (normalized
            (weighted_totals normal table mw (processed table ms)
               (k * (4 * length (processed table ms)) + pos)%nat)
            w (length ms)).
Proof.
  revert k. induction n as [|n IH]; intros k pos Hk; [lia|].
  destruct k as [|k]; [reflexivity|].
  cbn [trial_scores]. rewrite lookup_cons. rewrite IH by lia.
  do 3 f_equal. lia.
Qed.

Lemma for_range_empty normal table mw (n : nat) :
  forall scores wv pos,
    for_range n (trial_body normal table [] mw) (scores, wv) pos =
    Ok ((scores ++ replicate n (PyInt 0), wv), pos).
Proof.
  induction n as [|n IH]; intros scores wv pos.
  - cbn. now rewrite app_nil_r.
  - cbn [for_range]. erewrite bind_Ok; [|apply trial_body_empty].
    cbn [fst snd]. rewrite IH, <- app_assoc. reflexivity.
Qed.

Lemma processed_nil table (ms : list Method.t) :
  Forall (fun m => query_first table (Method.method_id m) = None) ms ->
  processed table ms = [].
Proof.
  induction 1 as [|m ms Hm _ IH]; [reflexivity|].
  rewrite processed_cons_False; [exact IH|].
  unfold has_service. rewrite Hm. now intros [? ?].
Qed.

Lemma last_processed table mw (ms : list Method.t) :
  processed table ms <> [] -> weights_supplied table mw ms ->
  exists m w, last (processed table ms) = Some m /\ mw !! Method.method_id m = Some w.
Proof.
  unfold weights_supplied. intros Hne Hall.
  destruct (last (processed table ms)) as [m|] eqn:Hlast.
  - apply last_Some_elem_of in Hlast as Hin.
    rewrite Forall_forall in Hall. destruct (Hall m Hin) as [w Hw]. eauto.
  - now apply last_None in Hlast.
Qed.

Lemma trial_scores_zero_weights normal table mw (ms : list Method.t) (n : nat) :
  forall pos,
    Forall (fun x => is_finite x = false)
           (trial_scores normal table mw ms (mkWeights 0 0 0 0) n pos).
Proof.
  induction n as [|n IH]; intros pos; cbn [trial_scores]; constructor; [|apply IH].
  unfold normalized. change (sum_values (mkWeights 0 0 0 0)) with 0%float.
  apply div_zero_times_not_finite.
Qed.


(** ** Runs on generators that make the same draws *)

Section SameDraws.

Variables normal1 normal2 : float -> float -> nat -> float.
Hypothesis same_draws : forall loc scale k, normal1 loc scale k = normal2 loc scale k.

Variable table : list Service.t.
Variable mw : gmap Z Weights.

Lemma sample_normal_dist_ext (min_val max_val std_dev : float) (pos : nat) :
  sample_normal_dist normal1 min_val max_val std_dev pos =
  sample_normal_dist normal2 min_val max_val std_dev pos.
Proof. rewrite !sample_normal_dist_eq. now rewrite same_draws. Qed.

Lemma score_method_ext (m : Method.t) (s : Service.t) (pos : nat) :
  score_method normal1 mw m s pos = score_method normal2 mw m s pos.
Proof.
  unfold score_method.
  repeat (apply bind_ext; [apply sample_normal_dist_ext | intros ? ?]).
  reflexivity.
Qed.

Lemma method_body_ext (m : Method.t) locals (pos : nat) :
  method_body normal1 table mw m locals pos = method_body normal2 table mw m locals pos.
Proof.
  unfold method_body. destruct (query_first table (Method.method_id m)); [|reflexivity].
  apply bind_ext; [apply score_method_ext | reflexivity].
Qed.

Lemma for_each_ext {A B : Type} (body1 body2 : A -> B -> M B) (xs : list A) :
  (forall x acc p, body1 x acc p = body2 x acc p) ->
  forall acc pos, for_each body1 xs acc pos = for_each body2 xs acc pos.
Proof.
  intros Hbody. induction xs as [|x xs IH]; intros acc pos; [reflexivity|].
  cbn [for_each]. apply bind_ext; [apply Hbody | apply IH].
Qed.

Lemma for_range_ext {B : Type} (body1 body2 : B -> M B) (n : nat) :
  (forall acc p, body1 acc p = body2 acc p) ->
  forall acc pos, for_range n body1 acc pos = for_range n body2 acc pos.
Proof.
  intros Hbody. induction n as [|n IH]; intros acc pos; [reflexivity|].
  cbn [for_range]. apply bind_ext; [apply Hbody | apply IH].
Qed.

Lemma trial_body_ext (ms : list Method.t) locals (pos : nat) :
  trial_body normal1 table ms mw locals pos = trial_body normal2 table ms mw locals pos.
Proof.
  unfold trial_body. apply bind_ext; [|reflexivity].
  apply for_each_ext. apply method_body_ext.
Qed.

Lemma monte_carlo_simulation_ext (ms : list Method.t) (n : Z) (pos : nat) :
  monte_carlo_simulation normal1 table ms mw n pos =
  monte_carlo_simulation normal2 table ms mw n pos.
Proof.
  unfold monte_carlo_simulation. apply bind_ext; [|reflexivity].
  apply for_range_ext. apply trial_body_ext.
Qed.

End SameDraws.


(** ** Runs on a generator keyed by trial, method and parameter *)

Section Keyed.

Variable key : nat -> Z -> nat -> float -> float -> float.
Variable table : list Service.t.
Variable mw : gmap Z Weights.

Lemma keyed_normal_at (order : list Method.t) (t j c : nat) (m : Method.t)
    (loc scale : float) (pos : nat) :
  order !! j = Some m ->
  (c < 4)%nat ->
  pos = (4 * j + t * (4 * length order))%nat ->
  keyed_normal key order loc scale (c + pos) = key t (Method.method_id m) c loc scale.
Proof.
  intros Hj Hc ->. apply lookup_lt_Some in Hj as Hlt. unfold keyed_normal. cbv zeta.
  assert (Hmod : ((c + (4 * j + t * (4 * length order))) mod (4 * length order)
                  = c + 4 * j)%nat).
  { symmetry. apply (Nat.mod_unique _ _ t); lia. }
  assert (Hdiv : ((c + (4 * j + t * (4 * length order))) / (4 * length order) = t)%nat).
  { symmetry. apply (Nat.div_unique _ _ _ (c + 4 * j)); lia. }
  rewrite Hmod, Hdiv.
  replace ((c + 4 * j) / 4)%nat with j
    by (apply (Nat.div_unique _ _ _ c); lia).
  replace ((c + 4 * j) mod 4)%nat with c
    by (apply (Nat.mod_unique _ _ j); lia).
  now rewrite Hj.
Qed.

Lemma method_total_keyed (order : list Method.t) (t j : nat) (m : Method.t) (pos : nat) :
  order !! j = Some m ->
  pos = (4 * j + t * (4 * length order))%nat ->
  method_total (keyed_normal key order) table mw m pos = keyed_total key table mw t m.
Proof.
  intros Hj Hpos. unfold keyed_total, method_total.
  destruct (query_first table (Method.method_id m)) as [s|]; [|reflexivity].
  destruct (mw !! Method.method_id m) as [w|]; [|reflexivity].
  unfold service_total, sampled.
  rewrite (keyed_normal_at order t j 0 m _ _ pos Hj) by (lia || exact Hpos).
  rewrite (keyed_normal_at order t j 1 m _ _ pos Hj) by (lia || exact Hpos).
  rewrite (keyed_normal_at order t j 2 m _ _ pos Hj) by (lia || exact Hpos).
  rewrite (keyed_normal_at order t j 3 m _ _ pos Hj) by (lia || exact Hpos).
  reflexivity.
Qed.

Lemma weighted_totals_keyed (order : list Method.t) (t : nat) (ps : list Method.t) :
  forall (done : list Method.t) (pos : nat),
    order = done ++ ps ->
    pos = (4 * length done + t * (4 * length order))%nat ->
    weighted_totals (keyed_normal key order) table mw ps pos =
    map (keyed_total key table mw t) ps.
Proof.
  induction ps as [|m ps IH]; intros done pos Horder Hpos; [reflexivity|].
  cbn [weighted_totals map]. f_equal.
  - apply (method_total_keyed order t (length done)); [|exact Hpos].
    rewrite Horder. apply list_lookup_middle. reflexivity.
  - apply (IH (done ++ [m])).
    + now rewrite <- app_assoc.
    + rewrite length_app. cbn [length]. lia.
Qed.

Lemma trial_scores_keyed (b : list Method.t) (w : Weights) (n : nat) :
  forall t : nat,
    trial_scores (keyed_normal key (processed table b)) table mw b w n
                 (t * (4 * length (processed table b))) =
    map (fun t' => normalized (map (keyed_total key table mw t') (processed table b)) w
                              (length b))
        (seq t n).
Proof.
  induction n as [|n IH]; intros t; [reflexivity|].
  cbn [trial_scores seq map]. f_equal.
  - f_equal. apply (weighted_totals_keyed _ t _ []); [reflexivity|cbn [length]; lia].
  - replace (4 * length (processed table b) + t * (4 * length (processed table b)))%nat
      with (S t * (4 * length (processed table b)))%nat by lia.
    apply IH.
Qed.

End Keyed.


Lemma processed_Permutation table (b b' : list Method.t) :
  b ≡ₚ b' -> processed table b ≡ₚ processed table b'.
Proof. intros H. unfold processed. now rewrite H. Qed.


Lemma processed_skips table (ms : list Method.t) (m : Method.t) :
  m ∈ ms -> ¬ has_service table m ->
  (m ∉ processed table ms) /\ (length (processed table ms) < length ms)%nat.
Proof.
  intros Hin Hs. split.
  - unfold processed. rewrite list_elem_of_filter. now intros [? _].
  - induction ms as [|a ms IH]; [now apply elem_of_nil in Hin|].
    apply elem_of_cons in Hin as [<-|Hin].
    + rewrite processed_cons_False by exact Hs. cbn [length].
      pose proof (length_filter (has_service table) ms). unfold processed. lia.
    + specialize (IH Hin). destruct (decide (has_service table a)) as [Ha|Ha].
      * rewrite processed_cons_True by exact Ha. cbn [length]. lia.
      * rewrite processed_cons_False by exact Ha. cbn [length]. lia.
Qed.

(** * The claims *)

(** C1. For a non-empty bundle, every score a run returns is the sum of all
    processed methods' weighted totals divided by (the sum of the four
    weights of the method processed last) times (the number of methods in
    the bundle): only the last method's weights enter the normalization. *)
Theorem normalization_by_last_weights normal table mw (ms : list Method.t) (n : Z)
    (pos : nat) (arr : ndarray) (pos' : nat) :
  ms <> [] ->
  (0 < n)%Z ->
  monte_carlo_simulation normal table ms mw n pos = Ok (arr, pos') ->
  exists m w,
    last (processed table ms) = Some m /\
    mw !! Method.method_id m = Some w /\
    arr = FloatArray (trial_scores normal table mw ms w (Z.to_nat n) pos) /\
    forall k : nat, (k < Z.to_nat n)%nat ->
      trial_scores normal table mw ms w (Z.to_nat n) pos !! k =
      Some (float_sum (weighted_totals normal table mw (processed table ms)
                         (k * (4 * length (processed table ms)) + pos)%nat)
            / (sum_values w * float_of_Z (Z.of_nat (length ms))))%float.
Proof.
  intros Hne Hn Hrun.
  assert (Hfirst : exists r, trial_body normal table ms mw ([], None) pos = Ok r).
  { unfold monte_carlo_simulation in Hrun.
    apply bind_inv in Hrun as (a & p & Hrun & _).
    destruct (Z.to_nat n) as [|n'] eqn:En; [lia|].
    cbn [for_range] in Hrun. apply bind_inv in Hrun as (a1 & p1 & Htrial & _). eauto. }
  destruct Hfirst as [r Hfirst].
  apply trial_body_Ok_inv in Hfirst as (Hall & m & w & Hlast & Hw); [|exact Hne].
  exists m, w. rewrite (simulation_processed _ _ _ _ m w) in Hrun by assumption.
  injection Hrun as <- _. repeat split; try assumption.
  intros k Hk. now apply trial_scores_lookup.
Qed.

Lemma normalization_by_last_weights_witness :
  exists m w,
    last (processed demo_table demo_bundle) = Some m /\
    demo_weights !! Method.method_id m = Some w /\
    FloatArray [2.25%float; 2.25%float] =
      FloatArray (trial_scores normal_at_mean demo_table demo_weights demo_bundle w
                    (Z.to_nat 2) 0) /\
    forall k : nat, (k < Z.to_nat 2)%nat ->
      trial_scores normal_at_mean demo_table demo_weights demo_bundle w (Z.to_nat 2) 0 !! k =
      Some (float_sum (weighted_totals normal_at_mean demo_table demo_weights
                         (processed demo_table demo_bundle)
                         (k * (4 * length (processed demo_table demo_bundle)) + 0)%nat)
            / (sum_values w * float_of_Z (Z.of_nat (length demo_bundle))))%float.
Proof.
  apply (normalization_by_last_weights normal_at_mean demo_table demo_weights demo_bundle
           2 0 (FloatArray [2.25%float; 2.25%float]) 16).
  - discriminate.
  - lia.
  - vm_compute. reflexivity.
Defined.

(** C4 (as the code has it). [sample_normal_dist] checks nothing: with
    [min_val > max_val] it still returns the draw centred at the midpoint,
    clipped to [0, 9]. *)
Theorem sample_inverted_bounds_returns normal (min_val max_val std_dev : float) (pos : nat) :
  (max_val <? min_val)%float = true ->
  sample_normal_dist normal min_val max_val std_dev pos =
  Ok (np_clip (normal ((min_val + max_val) / 2)%float std_dev pos) 0 9, S pos).
Proof. intros _. reflexivity. Qed.

Lemma sample_inverted_bounds_returns_witness :
  sample_normal_dist normal_at_mean 5 3 0.5 0 =
  Ok (np_clip (normal_at_mean ((5 + 3) / 2)%float 0.5 0) 0 9, 1%nat).
Proof. apply (sample_inverted_bounds_returns normal_at_mean 5 3 0.5 0). reflexivity. Defined.

(** C4, the claim as stated fails: bounds 5 > 3 give the value 4, not an
    error. *)
Lemma sample_inverted_bounds_counterexample :
  (3 <? 5)%float = true /\
  sample_normal_dist normal_at_mean 5 3 0.5 0 = Ok (4%float, 1%nat).
Proof. split; reflexivity. Qed.




(** A draw of 7 for a parameter declared as [2, 4] is returned as 7. *)
Example sample_above_declared_max :
  sample_normal_dist normal_seven 2 4 0.5 0 = Ok (7%float, 1%nat).
Proof. reflexivity. Qed.

(** C6 (as the code has it). When the four weights of the method processed
    last are all 0.0, the normalization factor is zero, but the division is
    a numpy.float64 division: nothing is raised, and every score of the run
    is a NaN or an infinity. *)
Theorem zero_last_weights_not_finite normal table mw (ms : list Method.t) (m : Method.t)
    (n : Z) (pos : nat) :
  last (processed table ms) = Some m ->
  mw !! Method.method_id m = Some (mkWeights 0 0 0 0) ->
  weights_supplied table mw ms ->
  exists scores pos',
    monte_carlo_simulation normal table ms mw n pos = Ok (FloatArray scores, pos') /\
    length scores = Z.to_nat n /\
    Forall (fun x => is_finite x = false) scores.
Proof.
  intros Hlast Hw Hall. do 2 eexists. split; [|split].
  - eapply simulation_processed; eassumption.
  - apply trial_scores_length.
  - apply trial_scores_zero_weights.
Qed.

Lemma zero_last_weights_not_finite_witness :
  exists scores pos',
    monte_carlo_simulation normal_at_mean demo_table [Method.mk 1] zero_weights 1 0 =
      Ok (FloatArray scores, pos') /\
    length scores = Z.to_nat 1 /\
    Forall (fun x => is_finite x = false) scores.
Proof.
  apply (zero_last_weights_not_finite normal_at_mean demo_table zero_weights
           [Method.mk 1] (Method.mk 1) 1 0).
  - reflexivity.
  - reflexivity.
  - apply (bool_decide_unpack _). vm_compute. exact I.
Defined.

(** C6, the claim as stated fails: one method with all weights 0.0 gives
    the score NaN, not an exception. *)
Lemma zero_last_weights_counterexample :
  last (processed demo_table [Method.mk 1]) = Some (Method.mk 1) /\
  zero_weights !! 1%Z = Some (mkWeights 0 0 0 0) /\
  monte_carlo_simulation normal_at_mean demo_table [Method.mk 1] zero_weights 1 0 =
    Ok (FloatArray [nan], 4%nat).
Proof. repeat split; vm_compute; reflexivity. Qed.

(** C7. For the empty bundle a trial appends the integer 0 and raises
    nothing, so a run returns [n] zeros. *)
Theorem empty_bundle_scores_zero normal table mw (n : Z) (pos : nat) :
  (forall locals p,
     trial_body normal table [] mw locals p = Ok ((fst locals ++ [PyInt 0], snd locals), p)) /\
  monte_carlo_simulation normal table [] mw n pos =
    Ok (np_array (replicate (Z.to_nat n) (PyInt 0)), pos).
Proof.
  split; [reflexivity|]. unfold monte_carlo_simulation.
  erewrite bind_Ok; [|apply for_range_empty]. reflexivity.
Qed.

(** C8. A run with [n_simulations = N > 0] that returns, returns an array
    of exactly [N] scores. *)
Theorem run_length normal table mw (ms : list Method.t) (n : Z) (pos : nat)
    (arr : ndarray) (pos' : nat) :
  (0 < n)%Z ->
  monte_carlo_simulation normal table ms mw n pos = Ok (arr, pos') ->
  Z.of_nat (array_length arr) = n.
Proof.
  intros Hn Hrun. unfold monte_carlo_simulation in Hrun.
  apply bind_inv in Hrun as ([scores wv] & p & Hloop & Hret).
  injection Hret as <- _. apply for_range_length in Hloop.
  rewrite np_array_length, Hloop. cbn [fst length]. lia.
Qed.

Lemma run_length_witness :
  Z.of_nat (array_length (FloatArray [2.25%float; 2.25%float])) = 2%Z.
Proof.
  apply (run_length normal_at_mean demo_table demo_weights demo_bundle 2 0 _ 16).
  - lia.
  - vm_compute. reflexivity.
Defined.

(** C10. A non-empty bundle none of whose methods has a service row makes
    the run fail at the normalization step, on the read of the local
    [weights] that no iteration assigned.  A trial appends the integer 0
    for the empty bundle only. *)
Theorem no_service_run_unbound normal table mw (ms : list Method.t) (n : Z) (pos : nat) :
  ms <> [] ->
  Forall (fun m => query_first table (Method.method_id m) = None) ms ->
  (0 < n)%Z ->
  monte_carlo_simulation normal table ms mw n pos = Raise UnboundLocalError /\
  (forall ms' locals p scores' wv' p' z,
     trial_body normal table ms' mw locals p = Ok ((scores', wv'), p') ->
     last scores' = Some (PyInt z) -> ms' = []).
Proof.
  intros Hne Hnone Hn. split.
  - unfold monte_carlo_simulation. apply bind_Raise.
    destruct (Z.to_nat n) as [|n'] eqn:En; [lia|].
    cbn [for_range]. apply bind_Raise.
    apply trial_body_unbound; [exact Hne|]. now apply processed_nil.
  - intros ms' locals p scores' wv' p' z Htrial Hlast.
    apply trial_body_inv in Htrial as (x & -> & Hint).
    rewrite last_snoc in Hlast. injection Hlast as ->. now apply Hint.
Qed.

Lemma no_service_run_unbound_witness :
  monte_carlo_simulation normal_at_mean demo_table [Method.mk 3] demo_weights 1000 0 =
    Raise UnboundLocalError /\
  (forall ms' locals p scores' wv' p' z,
     trial_body normal_at_mean demo_table ms' demo_weights locals p = Ok ((scores', wv'), p') ->
     last scores' = Some (PyInt z) -> ms' = []).
Proof.
  apply (no_service_run_unbound normal_at_mean demo_table demo_weights [Method.mk 3] 1000 0).
  - discriminate.
  - repeat constructor.
  - lia.
Defined.

(** C3 (as the code has it). A method without a service row is skipped:
    its iteration changes nothing and draws nothing, so it is not among the
    processed methods, but it still counts in the number of methods the
    total is divided by.  As long as some method of the bundle has a row
    (and the methods that have one have weights), the run does not abort:
    it returns [n] scores, each the sum of the processed methods' weighted
    totals divided by (the weight sum of the method processed last) times
    (the number of all selected methods). *)
Theorem missing_service_is_skipped normal table mw (ms : list Method.t) (m : Method.t)
    (n : Z) (pos : nat) :
  m ∈ ms ->
  query_first table (Method.method_id m) = None ->
  processed table ms <> [] ->
  weights_supplied table mw ms ->
  (forall locals p, method_body normal table mw m locals p = Ok (locals, p)) /\
  (m ∉ processed table ms) /\
  (length (processed table ms) < length ms)%nat /\
  exists ml w,
    last (processed table ms) = Some ml /\
    mw !! Method.method_id ml = Some w /\
    monte_carlo_simulation normal table ms mw n pos =
      Ok (FloatArray (trial_scores normal table mw ms w (Z.to_nat n) pos),
          (Z.to_nat n * (4 * length (processed table ms)) + pos)%nat) /\
    length (trial_scores normal table mw ms w (Z.to_nat n) pos) = Z.to_nat n /\
    forall k : nat, (k < Z.to_nat n)%nat ->
      trial_scores normal table mw ms w (Z.to_nat n) pos !! k =
      Some (float_sum (weighted_totals normal table mw (processed table ms)
                         (k * (4 * length (processed table ms)) + pos)%nat)
            / (sum_values w * float_of_Z (Z.of_nat (length ms))))%float.
Proof.
  intros Hin Hnone Hne Hall.
  assert (Hs : ¬ has_service table m).
  { unfold has_service. rewrite Hnone. now intros [? ?]. }
  destruct (processed_skips table ms m Hin Hs) as [Hnotin Hlen].
  split; [|split; [exact Hnotin|split; [exact Hlen|]]].
  - intros locals p. now apply method_body_skip.
  - destruct (last_processed table mw ms Hne Hall) as (ml & w & Hlast & Hw).
    exists ml, w. repeat split; try assumption.
    + eapply simulation_processed; eassumption.
    + apply trial_scores_length.
    + intros k Hk. now apply trial_scores_lookup.
Qed.

Lemma missing_service_is_skipped_witness :
  (forall locals p,
     method_body normal_at_mean demo_table demo_weights (Method.mk 3) locals p =
     Ok (locals, p)) /\
  (Method.mk 3 ∉ processed demo_table [Method.mk 1; Method.mk 3]) /\
  (length (processed demo_table [Method.mk 1; Method.mk 3])
   < length [Method.mk 1; Method.mk 3])%nat /\
  exists ml w,
    last (processed demo_table [Method.mk 1; Method.mk 3]) = Some ml /\
    demo_weights !! Method.method_id ml = Some w /\
    monte_carlo_simulation normal_at_mean demo_table [Method.mk 1; Method.mk 3] demo_weights 2 0 =
      Ok (FloatArray (trial_scores normal_at_mean demo_table demo_weights
                        [Method.mk 1; Method.mk 3] w (Z.to_nat 2) 0),
          (Z.to_nat 2 * (4 * length (processed demo_table [Method.mk 1; Method.mk 3])) + 0)%nat) /\
    length (trial_scores normal_at_mean demo_table demo_weights
              [Method.mk 1; Method.mk 3] w (Z.to_nat 2) 0) = Z.to_nat 2 /\
    forall k : nat, (k < Z.to_nat 2)%nat ->
      trial_scores normal_at_mean demo_table demo_weights
        [Method.mk 1; Method.mk 3] w (Z.to_nat 2) 0 !! k =
      Some (float_sum (weighted_totals normal_at_mean demo_table demo_weights
                         (processed demo_table [Method.mk 1; Method.mk 3])
                         (k * (4 * length (processed demo_table [Method.mk 1; Method.mk 3])) + 0)%nat)
            / (sum_values w * float_of_Z (Z.of_nat (length [Method.mk 1; Method.mk 3]))))%float.
Proof.
  apply (missing_service_is_skipped normal_at_mean demo_table demo_weights
           [Method.mk 1; Method.mk 3] (Method.mk 3) 2 0).
  - apply list_elem_of_In. cbn. auto.
  - reflexivity.
  - discriminate.
  - apply (bool_decide_unpack _). vm_compute. exact I.
Defined.

(** The skipped method counts in the divisor: method 1 alone scores 3,
    methods 1 and 3 together score 1.5, though method 3 adds nothing. *)
Example skipped_method_counts :
  monte_carlo_simulation normal_at_mean demo_table [Method.mk 1] demo_weights 1 0 =
    Ok (FloatArray [3%float], 4%nat) /\
  monte_carlo_simulation normal_at_mean demo_table [Method.mk 1; Method.mk 3] demo_weights 1 0 =
    Ok (FloatArray [1.5%float], 4%nat).
Proof. split; vm_compute; reflexivity. Qed.

(** C3, the claim as stated fails: method 3 has no service row, and the run
    over methods 1 and 3 returns a score all the same. *)
Lemma missing_service_counterexample :
  query_first demo_table (Method.method_id (Method.mk 3)) = None /\
  monte_carlo_simulation normal_at_mean demo_table [Method.mk 1; Method.mk 3] demo_weights 1 0 =
    Ok (FloatArray [1.5%float], 4%nat).
Proof. split; vm_compute; reflexivity. Qed.

(** C9. Two runs whose generators were seeded alike, so that they make the
    same draws, return the same scores (and leave the generator in the same
    state) for the same bundle and trial count. *)
Theorem seeded_runs_agree (normal1 normal2 : float -> float -> nat -> float)
    table mw (ms : list Method.t) (n : Z) (pos : nat) :
  (forall loc scale k, normal1 loc scale k = normal2 loc scale k) ->
  monte_carlo_simulation normal1 table ms mw n pos =
  monte_carlo_simulation normal2 table ms mw n pos.
Proof. intros Hsame. now apply monte_carlo_simulation_ext. Qed.

Lemma seeded_runs_agree_witness :
  monte_carlo_simulation normal_at_mean demo_table demo_bundle demo_weights 3 0 =
  monte_carlo_simulation (fun loc scale _ => (loc + scale * 0)%float)
    demo_table demo_bundle demo_weights 3 0.
Proof.
  apply (seeded_runs_agree normal_at_mean (fun loc scale _ => (loc + scale * 0)%float)).
  reflexivity.
Defined.

(** C2 (as the code has it). Take a bundle and a permutation of it whose
    last-processed method carries the same weights, and hold the draws fixed
    per trial, method and parameter.  Then both runs return, and in every
    trial both scores are floating-point sums of the same per-method
    weighted totals, added in the order of the respective bundle, divided
    by the same normalization factor. *)
Theorem permuted_bundle_same_terms key table mw (b b' : list Method.t)
    (m m' : Method.t) (w : Weights) (n : Z) :
  b ≡ₚ b' ->
  last (processed table b) = Some m -> mw !! Method.method_id m = Some w ->
  last (processed table b') = Some m' -> mw !! Method.method_id m' = Some w ->
  weights_supplied table mw b ->
  exists pos',
    monte_carlo_simulation (keyed_normal key (processed table b)) table b mw n 0 =
      Ok (FloatArray
            (map (fun t => (float_sum (map (keyed_total key table mw t) (processed table b))
                            / (sum_values w * float_of_Z (Z.of_nat (length b))))%float)
                 (seq 0 (Z.to_nat n))), pos') /\
    monte_carlo_simulation (keyed_normal key (processed table b')) table b' mw n 0 =
      Ok (FloatArray
            (map (fun t => (float_sum (map (keyed_total key table mw t) (processed table b'))
                            / (sum_values w * float_of_Z (Z.of_nat (length b))))%float)
                 (seq 0 (Z.to_nat n))), pos') /\
    forall t, map (keyed_total key table mw t) (processed table b) ≡ₚ
              map (keyed_total key table mw t) (processed table b').
Proof.
  intros Hperm Hlast Hw Hlast' Hw' Hall.
  pose proof (processed_Permutation table b b' Hperm) as Hproc.
  assert (Hall' : weights_supplied table mw b').
  { unfold weights_supplied in *. now rewrite <- Hproc. }
  exists (Z.to_nat n * (4 * length (processed table b)) + 0)%nat. split; [|split].
  - rewrite (simulation_processed _ _ _ _ m w) by assumption.
    pose proof (trial_scores_keyed key table mw b w (Z.to_nat n) 0) as Hk.
    cbn [Nat.mul] in Hk. now rewrite Hk.
  - rewrite (simulation_processed _ _ _ _ m' w) by assumption.
    pose proof (trial_scores_keyed key table mw b' w (Z.to_nat n) 0) as Hk.
    cbn [Nat.mul] in Hk. rewrite Hk. unfold normalized.
    now rewrite (Permutation_length Hperm), (Permutation_length Hproc).
  - intros t. now rewrite Hproc.
Qed.

Lemma permuted_bundle_same_terms_witness :
  exists pos',
    monte_carlo_simulation
        (keyed_normal key_shift
           (processed table_4 [Method.mk 1; Method.mk 2; Method.mk 3; Method.mk 4]))
        table_4 [Method.mk 1; Method.mk 2; Method.mk 3; Method.mk 4] weights_4 2 0 =
      Ok (FloatArray
            (map (fun t =>
                    (float_sum (map (keyed_total key_shift table_4 weights_4 t)
                                    (processed table_4
                                       [Method.mk 1; Method.mk 2; Method.mk 3; Method.mk 4]))
                     / (sum_values (cost_only 0.5)
                        * float_of_Z (Z.of_nat (length
                            [Method.mk 1; Method.mk 2; Method.mk 3; Method.mk 4]))))%float)
                 (seq 0 (Z.to_nat 2))), pos') /\
    monte_carlo_simulation
        (keyed_normal key_shift
           (processed table_4 [Method.mk 3; Method.mk 2; Method.mk 1; Method.mk 4]))
        table_4 [Method.mk 3; Method.mk 2; Method.mk 1; Method.mk 4] weights_4 2 0 =
      Ok (FloatArray
            (map (fun t =>
                    (float_sum (map (keyed_total key_shift table_4 weights_4 t)
                                    (processed table_4
                                       [Method.mk 3; Method.mk 2; Method.mk 1; Method.mk 4]))
                     / (sum_values (cost_only 0.5)
                        * float_of_Z (Z.of_nat (length
                            [Method.mk 1; Method.mk 2; Method.mk 3; Method.mk 4]))))%float)
                 (seq 0 (Z.to_nat 2))), pos') /\
    forall t, map (keyed_total key_shift table_4 weights_4 t)
                  (processed table_4 [Method.mk 1; Method.mk 2; Method.mk 3; Method.mk 4]) ≡ₚ
              map (keyed_total key_shift table_4 weights_4 t)
                  (processed table_4 [Method.mk 3; Method.mk 2; Method.mk 1; Method.mk 4]).
Proof.
  apply (permuted_bundle_same_terms key_shift table_4 weights_4
           [Method.mk 1; Method.mk 2; Method.mk 3; Method.mk 4]
           [Method.mk 3; Method.mk 2; Method.mk 1; Method.mk 4]
           (Method.mk 4) (Method.mk 4) (cost_only 0.5) 2).
  - apply (bool_decide_unpack _). vm_compute. exact I.
  - reflexivity.
  - reflexivity.
  - reflexivity.
  - reflexivity.
  - apply (bool_decide_unpack _). vm_compute. exact I.
Defined.

(** C2, the claim as stated fails: with the draws of every method and
    parameter held fixed, methods 1 (weights 1) and 2 (weights 2) score
    3.4375 in one order and 6.875 in the other. *)
Lemma permuted_bundle_counterexample :
  [Method.mk 2; Method.mk 1] ≡ₚ [Method.mk 1; Method.mk 2] /\
  monte_carlo_simulation (keyed_normal key_shift [Method.mk 1; Method.mk 2])
      demo_table [Method.mk 1; Method.mk 2] demo_weights 1 0 =
    Ok (FloatArray [3.4375%float], 8%nat) /\
  monte_carlo_simulation (keyed_normal key_shift [Method.mk 2; Method.mk 1])
      demo_table [Method.mk 2; Method.mk 1] demo_weights 1 0 =
    Ok (FloatArray [6.875%float], 8%nat).
Proof. split; [apply Permutation_swap|]. split; vm_compute; reflexivity. Qed.

(** Even with the same method last, the order of the additions shows in
    the last bits: methods 1, 2, 3 before method 4 or 3, 2, 1 before it. *)
Example summation_order_shows :
  monte_carlo_simulation normal_at_mean table_4
      [Method.mk 1; Method.mk 2; Method.mk 3; Method.mk 4] weights_4 1 0 =
    Ok (FloatArray [0x1.f333333333333p+0%float], 16%nat) /\
  monte_carlo_simulation normal_at_mean table_4
      [Method.mk 3; Method.mk 2; Method.mk 1; Method.mk 4] weights_4 1 0 =
    Ok (FloatArray [0x1.f333333333332p+0%float], 16%nat).
Proof. split; vm_compute; reflexivity. Qed.

(** A second call that does not reseed continues from the state the first
    one left, and its scores differ. *)
Example unseeded_second_call_differs :
  monte_carlo_simulation normal_ramp demo_table [Method.mk 1] demo_weights 1 0 =
    Ok (FloatArray [2.875%float], 4%nat) /\
  monte_carlo_simulation normal_ramp demo_table [Method.mk 1] demo_weights 1 4 =
    Ok (FloatArray [3%float], 8%nat).
Proof. split; vm_compute; reflexivity. Qed.

(** * Further properties of the code *)

(** ** Outcomes of a run *)

Lemma for_each_KeyError normal table mw (ms : list Method.t) :
  ¬ weights_supplied table mw ms ->
  forall locals pos, for_each (method_body normal table mw) ms locals pos = Raise KeyError.
Proof.
  unfold weights_supplied.
  induction ms as [|m ms IH]; intros Hn locals pos; [exfalso; apply Hn; constructor|].
  cbn [for_each]. destruct (decide (has_service table m)) as [Hs|Hs].
  - rewrite processed_cons_True in Hn by exact Hs.
    destruct (mw !! Method.method_id m) as [w|] eqn:Hw.
    + destruct locals as [total_irl wv].
      erewrite bind_Ok; [|apply method_body_Ok; eassumption].
      apply IH. intros H. apply Hn. constructor; eauto.
    + apply bind_Raise. now apply method_body_KeyError.
  - rewrite processed_cons_False in Hn by exact Hs.
    erewrite bind_Ok; [|apply method_body_skip; exact Hs]. now apply IH.
Qed.

Lemma run_KeyError normal table mw (ms : list Method.t) (n : Z) (pos : nat) :
  (0 < n)%Z -> ¬ weights_supplied table mw ms ->
  monte_carlo_simulation normal table ms mw n pos = Raise KeyError.
Proof.
  intros Hn Hmiss. unfold monte_carlo_simulation. apply bind_Raise.
  destruct (Z.to_nat n) as [|n'] eqn:En; [lia|].
  cbn [for_range]. apply bind_Raise. unfold trial_body. apply bind_Raise.
  now apply for_each_KeyError.
Qed.

Lemma run_no_trial normal table mw (ms : list Method.t) (n : Z) (pos : nat) :
  Z.to_nat n = 0%nat ->
  monte_carlo_simulation normal table ms mw n pos = Ok (FloatArray [], pos).
Proof. intros Hn. unfold monte_carlo_simulation. now rewrite Hn. Qed.

(** Every way a run can end, and where it leaves the generator when it
    returns. *)
Lemma run_cases normal table mw (ms : list Method.t) (n : Z) (pos : nat) :
  (exists arr, monte_carlo_simulation normal table ms mw n pos =
               Ok (arr, (Z.to_nat n * (4 * length (processed table ms)) + pos)%nat)) \/
  monte_carlo_simulation normal table ms mw n pos = Raise KeyError \/
  monte_carlo_simulation normal table ms mw n pos = Raise UnboundLocalError.
Proof.
  destruct (Z.to_nat n) as [|n'] eqn:En.
  { left. eexists. now apply run_no_trial. }
  assert (Hn : (0 < n)%Z) by lia.
  destruct (decide (weights_supplied table mw ms)) as [Hall|Hmiss];
    [|right; left; now apply run_KeyError].
  destruct (decide (processed table ms = [])) as [Hp|Hp].
  - destruct ms as [|m0 ms].
    + left. eexists. unfold monte_carlo_simulation.
      erewrite bind_Ok; [|apply for_range_empty]. rewrite En, Hp. cbn [length].
      replace (S n' * (4 * 0) + pos)%nat with pos by lia. reflexivity.
    + right; right. unfold monte_carlo_simulation. apply bind_Raise.
      rewrite En. cbn [for_range]. apply bind_Raise. now apply trial_body_unbound.
  - left. destruct (last_processed table mw ms Hp Hall) as (m & w & Hlast & Hw).
    eexists. rewrite <- En. eapply simulation_processed; eassumption.
Qed.

(** X1. Over service rows that carry numeric bounds, as [populate_data]
    writes them, a run never raises ZeroDivisionError, whatever the
    weights, the bundle and the trial count: it returns, or raises
    KeyError, or raises UnboundLocalError. *)
Theorem run_never_divides_by_zero normal table mw (ms : list Method.t) (n : Z) (pos : nat) :
  (exists arr pos', monte_carlo_simulation normal table ms mw n pos = Ok (arr, pos')) \/
  monte_carlo_simulation normal table ms mw n pos = Raise KeyError \/
  monte_carlo_simulation normal table ms mw n pos = Raise UnboundLocalError.
Proof.
  destruct (run_cases normal table mw ms n pos) as [[arr H]|[H|H]]; eauto.
Qed.

(** X2. A run that returns has taken exactly four draws per processed
    method and trial from the generator, and none for the methods it
    skipped. *)
Theorem run_draws_consumed normal table mw (ms : list Method.t) (n : Z) (pos : nat)
    (arr : ndarray) (pos' : nat) :
  monte_carlo_simulation normal table ms mw n pos = Ok (arr, pos') ->
  pos' = (pos + 4 * length (processed table ms) * Z.to_nat n)%nat.
Proof.
  intros Hrun. destruct (run_cases normal table mw ms n pos) as [[arr' H]|[H|H]];
    rewrite H in Hrun; [|discriminate..].
  injection Hrun as _ <-. lia.
Qed.

Lemma run_draws_consumed_witness :
  16%nat = (0 + 4 * length (processed demo_table [Method.mk 1; Method.mk 3; Method.mk 2])
              * Z.to_nat 2)%nat.
Proof.
  apply (run_draws_consumed normal_at_mean demo_table demo_weights
           [Method.mk 1; Method.mk 3; Method.mk 2] 2 0
           (FloatArray [1.5%float; 1.5%float])).
  vm_compute. reflexivity.
Defined.

(** X3. With at least one trial, a selected method that has a service row
    but no entry in [method_weights] makes the run raise KeyError. *)
Theorem missing_weights_KeyError normal table mw (ms : list Method.t) (m : Method.t)
    (n : Z) (pos : nat) :
  (0 < n)%Z ->
  m ∈ ms ->
  has_service table m ->
  mw !! Method.method_id m = None ->
  monte_carlo_simulation normal table ms mw n pos = Raise KeyError.
Proof.
  intros Hn Hin Hs Hw. apply run_KeyError; [exact Hn|].
  unfold weights_supplied. rewrite Forall_forall. intros Hall.
  destruct (Hall m) as [w Hw']; [|congruence].
  unfold processed. apply list_elem_of_filter. now split.
Qed.

Lemma missing_weights_KeyError_witness :
  monte_carlo_simulation normal_at_mean demo_table [Method.mk 1; Method.mk 2] zero_weights 5 0 =
  Raise KeyError.
Proof.
  apply (missing_weights_KeyError normal_at_mean demo_table zero_weights
           [Method.mk 1; Method.mk 2] (Method.mk 2) 5 0).
  - lia.
  - apply list_elem_of_In. cbn. auto.
  - apply (bool_decide_unpack _). vm_compute. exact I.
  - reflexivity.
Defined.

(** ** What a run depends on *)

Lemma for_each_processed normal table mw (ms : list Method.t) :
  forall locals pos,
    for_each (method_body normal table mw) ms locals pos =
    for_each (method_body normal table mw) (processed table ms) locals pos.
Proof.
  induction ms as [|m ms IH]; intros locals pos; [reflexivity|].
  destruct (decide (has_service table m)) as [Hs|Hs].
  - rewrite processed_cons_True by exact Hs. cbn [for_each].
    apply bind_ext; [reflexivity | apply IH].
  - rewrite processed_cons_False by exact Hs. cbn [for_each].
    erewrite bind_Ok; [|apply method_body_skip; exact Hs]. apply IH.
Qed.

Lemma trial_body_same_processed normal table mw (ms ms' : list Method.t) locals (pos : nat) :
  processed table ms = processed table ms' ->
  length ms = length ms' ->
  trial_body normal table ms mw locals pos = trial_body normal table ms' mw locals pos.
Proof.
  intros Hproc Hlen. unfold trial_body. apply bind_ext.
  - now rewrite (for_each_processed _ _ _ ms), (for_each_processed _ _ _ ms'), Hproc.
  - intros [total_irl wv] p. destruct ms, ms'; try discriminate; [reflexivity|].
    now rewrite Hlen.
Qed.

(** X4. Which methods without a service row a bundle holds, and where, does
    not matter, only how many: two bundles of the same size whose processed
    methods are the same, in the same order, give the same run. *)
Theorem skipped_methods_position_irrelevant normal table mw (ms ms' : list Method.t)
    (n : Z) (pos : nat) :
  processed table ms = processed table ms' ->
  length ms = length ms' ->
  monte_carlo_simulation normal table ms mw n pos =
  monte_carlo_simulation normal table ms' mw n pos.
Proof.
  intros Hproc Hlen. unfold monte_carlo_simulation. apply bind_ext; [|reflexivity].
  apply for_range_ext. intros acc p. now apply trial_body_same_processed.
Qed.

Lemma skipped_methods_position_irrelevant_witness :
  monte_carlo_simulation normal_ramp demo_table
    [Method.mk 3; Method.mk 1; Method.mk 2] demo_weights 2 0 =
  monte_carlo_simulation normal_ramp demo_table
    [Method.mk 1; Method.mk 2; Method.mk 4] demo_weights 2 0.
Proof.
  apply (skipped_methods_position_irrelevant normal_ramp demo_table demo_weights
           [Method.mk 3; Method.mk 1; Method.mk 2] [Method.mk 1; Method.mk 2; Method.mk 4] 2 0);
    reflexivity.
Defined.

Lemma query_first_app (table extra : list Service.t) (mid : Z) (s : Service.t) :
  query_first table mid = Some s -> query_first (table ++ extra) mid = Some s.
Proof.
  unfold query_first. induction table as [|r table IH]; [discriminate|].
  cbn [app find]. destruct (Service.method_id r =? mid)%Z; [trivial | exact IH].
Qed.

Lemma for_each_ext_in {A B : Type} (body1 body2 : A -> B -> M B) (xs : list A) :
  Forall (fun x => forall acc p, body1 x acc p = body2 x acc p) xs ->
  forall acc pos, for_each body1 xs acc pos = for_each body2 xs acc pos.
Proof.
  induction 1 as [|x xs Hx _ IH]; intros acc pos; [reflexivity|].
  cbn [for_each]. apply bind_ext; [apply Hx | apply IH].
Qed.

(** X5. [first()] takes the first row of a method: rows appended to the
    table later do not change the run of a bundle whose methods all had a
    row already. *)
Theorem appended_rows_ignored normal (table extra : list Service.t) mw (ms : list Method.t)
    (n : Z) (pos : nat) :
  Forall (has_service table) ms ->
  monte_carlo_simulation normal (table ++ extra) ms mw n pos =
  monte_carlo_simulation normal table ms mw n pos.
Proof.
  intros Hall. unfold monte_carlo_simulation. apply bind_ext; [|reflexivity].
  apply for_range_ext. intros acc p. unfold trial_body.
  apply bind_ext; [|reflexivity].
  apply for_each_ext_in. eapply Forall_impl; [exact Hall|].
  intros m [s Hs] locals q. unfold method_body.
  now rewrite (query_first_app table extra _ s Hs), Hs.
Qed.

Lemma appended_rows_ignored_witness :
  monte_carlo_simulation normal_ramp
    (demo_table ++ [Service.mk 1 0 1 0 1 0 1 0 1; Service.mk 3 5 7 5 7 5 7 5 7])
    demo_bundle demo_weights 2 0 =
  monte_carlo_simulation normal_ramp demo_table demo_bundle demo_weights 2 0.
Proof.
  apply (appended_rows_ignored normal_ramp demo_table
           [Service.mk 1 0 1 0 1 0 1 0 1; Service.mk 3 5 7 5 7 5 7 5 7]
           demo_weights demo_bundle 2 0).
  apply (bool_decide_unpack _). vm_compute. exact I.
Defined.

(** ** The three cases of the clip *)

(** X6. [sample_normal_dist] returns the draw itself when it lies in
    [0, 9], also outside [min_val, max_val]; 0 when the draw is below 0;
    9 when it is above 9. *)
Theorem sample_clip_cases normal (min_val max_val std_dev : float) (pos : nat) :
  ((0 <=? normal ((min_val + max_val) / 2) std_dev pos)%float = true ->
   (normal ((min_val + max_val) / 2) std_dev pos <=? 9)%float = true ->
   sample_normal_dist normal min_val max_val std_dev pos =
   Ok (normal ((min_val + max_val) / 2)%float std_dev pos, S pos)) /\
  ((normal ((min_val + max_val) / 2) std_dev pos <? 0)%float = true ->
   sample_normal_dist normal min_val max_val std_dev pos = Ok (0%float, S pos)) /\
  ((9 <? normal ((min_val + max_val) / 2) std_dev pos)%float = true ->
   sample_normal_dist normal min_val max_val std_dev pos = Ok (9%float, S pos)).
Proof.
  rewrite sample_normal_dist_eq. unfold np_clip. repeat split.
  - intros Hlo Hhi. now rewrite (leb_true_ltb_false _ _ Hlo), (leb_true_ltb_false _ _ Hhi).
  - intros Hlo. now rewrite Hlo.
  - intros Hhi. now rewrite (above_9_not_below_0 _ Hhi), Hhi.
Qed.

(** ** The selection on the page *)

Lemma select_fold_fst (ui : widgets) (all_methods : list Method.t) :
  forall sel mw,
    fst (fold_left (select_body ui) all_methods (sel, mw)) =
    sel ++ filter (fun m => checkbox ui (Method.method_id m) = true) all_methods.
Proof.
  induction all_methods as [|m ms IH]; intros sel mw; cbn [fold_left].
  - now rewrite app_nil_r.
  - unfold select_body at 2. cbn [fst snd].
    destruct (checkbox ui (Method.method_id m)) eqn:Hc.
    + rewrite IH, filter_cons_True by exact Hc. now rewrite <- app_assoc.
    + rewrite IH, filter_cons_False; [reflexivity|]. now rewrite Hc.
Qed.

Lemma select_fold_lookup (ui : widgets) (all_methods : list Method.t) (k : Z) :
  forall sel mw,
    snd (fold_left (select_body ui) all_methods (sel, mw)) !! k =
    if bool_decide (k ∈ Method.method_id <$>
                      filter (fun m => checkbox ui (Method.method_id m) = true) all_methods)
    then Some (slider_weights ui k) else mw !! k.
Proof.
  induction all_methods as [|m ms IH]; intros sel mw; cbn [fold_left].
  - rewrite bool_decide_eq_false_2; [reflexivity|]. cbn. apply not_elem_of_nil.
  - unfold select_body at 2. cbn [fst snd].
    destruct (checkbox ui (Method.method_id m)) eqn:Hc.
    + rewrite IH, filter_cons_True by exact Hc. rewrite fmap_cons.
      destruct (decide (k = Method.method_id m)) as [->|Hne].
      * rewrite lookup_insert_eq.
        rewrite (bool_decide_eq_true_2 (_ ∈ _ :: _)) by (apply elem_of_cons; auto).
        now destruct (bool_decide _).
      * rewrite lookup_insert_ne by congruence.
        destruct (bool_decide (k ∈ _ <$> filter _ ms)) eqn:Hb.
        -- apply bool_decide_eq_true_1 in Hb.
           rewrite bool_decide_eq_true_2; [reflexivity|]. apply elem_of_cons; auto.
        -- apply bool_decide_eq_false_1 in Hb.
           rewrite bool_decide_eq_false_2; [reflexivity|].
           intros [?|?]%elem_of_cons; contradiction.
    + rewrite IH, filter_cons_False; [reflexivity|]. now rewrite Hc.
Qed.

(** X7. After the selection loop, [selected_methods] holds the ticked
    methods in page order, and [method_weights] holds, for exactly their
    ids, the values of their four sliders. *)
Theorem selection_result (ui : widgets) (all_methods : list Method.t) :
  NoDup (Method.method_id <$> all_methods) ->
  fst (select_methods ui all_methods) =
    filter (fun m => checkbox ui (Method.method_id m) = true) all_methods /\
  forall k : Z,
    snd (select_methods ui all_methods) !! k =
    if bool_decide (k ∈ Method.method_id <$> fst (select_methods ui all_methods))
    then Some (slider_weights ui k) else None.
Proof.
  intros _. unfold select_methods. split; [apply select_fold_fst|].
  intros k. rewrite select_fold_lookup, select_fold_fst. cbn [app].
  now rewrite lookup_empty.
Qed.

Lemma selection_result_witness :
  fst (select_methods demo_ui demo_methods) =
    filter (fun m => checkbox demo_ui (Method.method_id m) = true) demo_methods /\
  forall k : Z,
    snd (select_methods demo_ui demo_methods) !! k =
    if bool_decide (k ∈ Method.method_id <$> fst (select_methods demo_ui demo_methods))
    then Some (slider_weights demo_ui k) else None.
Proof.
  apply (selection_result demo_ui demo_methods).
  apply (bool_decide_unpack _). vm_compute. exact I.
Defined.

Lemma selection_supplied (ui : widgets) (all_methods : list Method.t) table :
  weights_supplied table (snd (select_methods ui all_methods))
                   (fst (select_methods ui all_methods)).
Proof.
  unfold weights_supplied, processed. apply Forall_forall. intros m Hm.
  apply list_elem_of_filter in Hm as [_ Hm].
  unfold select_methods at 1. rewrite select_fold_lookup.
  unfold select_methods in Hm. rewrite select_fold_fst in Hm. cbn [app] in Hm.
  rewrite bool_decide_eq_true_2; [eauto|]. now apply list_elem_of_fmap_2.
Qed.

(** X8. Pressing Run on the page has three outcomes.  Nothing is run when
    the button is not pressed or no method is ticked.  When a ticked method
    has a service row, the simulation returns 1000 float scores.  When
    methods are ticked but none has a row, it raises UnboundLocalError.
    It never raises KeyError or ZeroDivisionError, and it is never run on
    the empty bundle. *)
Theorem run_clicked_outcomes normal table (ui : widgets) (all_methods : list Method.t)
    (pos : nat) :
  NoDup (Method.method_id <$> all_methods) ->
  (run_clicked normal table ui all_methods pos = Ok (None, pos) /\
   (run_button ui = false \/ fst (select_methods ui all_methods) = [])) \/
  (exists scores pos',
     run_clicked normal table ui all_methods pos = Ok (Some (FloatArray scores), pos') /\
     length scores = 1000%nat /\
     run_button ui = true /\
     processed table (fst (select_methods ui all_methods)) <> []) \/
  (run_clicked normal table ui all_methods pos = Raise UnboundLocalError /\
   run_button ui = true /\
   fst (select_methods ui all_methods) <> [] /\
   processed table (fst (select_methods ui all_methods)) = []).
Proof.
  intros _. pose proof (selection_supplied ui all_methods table) as Hall.
  unfold run_clicked. destruct (select_methods ui all_methods) as [sel mw].
  cbn [fst snd] in *.
  destruct (run_button ui); cbn [andb]; [|left; auto].
  destruct sel as [|m0 sel]; [left; auto|].
  destruct (decide (processed table (m0 :: sel) = [])) as [Hp|Hp].
  - right; right. repeat split; [|discriminate|exact Hp].
    apply bind_Raise. unfold monte_carlo_simulation. apply bind_Raise.
    cbn [for_range Z.to_nat n_simulations_default].
    change (Pos.to_nat 1000) with (S 999). cbn [for_range].
    apply bind_Raise. now apply trial_body_unbound.
  - right; left. destruct (last_processed table mw _ Hp Hall) as (m & w & Hlast & Hw).
    do 2 eexists. split; [|split; [|split; [reflexivity|exact Hp]]].
    + erewrite bind_Ok; [reflexivity|]. eapply simulation_processed; eassumption.
    + rewrite trial_scores_length. reflexivity.
Qed.

Lemma run_clicked_outcomes_witness :
  (run_clicked normal_at_mean demo_table demo_ui demo_methods 0 = Ok (None, 0%nat) /\
   (run_button demo_ui = false \/ fst (select_methods demo_ui demo_methods) = [])) \/
  (exists scores pos',
     run_clicked normal_at_mean demo_table demo_ui demo_methods 0 =
       Ok (Some (FloatArray scores), pos') /\
     length scores = 1000%nat /\
     run_button demo_ui = true /\
     processed demo_table (fst (select_methods demo_ui demo_methods)) <> []) \/
  (run_clicked normal_at_mean demo_table demo_ui demo_methods 0 = Raise UnboundLocalError /\
   run_button demo_ui = true /\
   fst (select_methods demo_ui demo_methods) <> [] /\
   processed demo_table (fst (select_methods demo_ui demo_methods)) = []).
Proof.
  apply (run_clicked_outcomes normal_at_mean demo_table demo_ui demo_methods 0).
  apply (bool_decide_unpack _). vm_compute. exact I.
Defined.

(** ** Methods by type *)

Lemma dict_get_snoc {V : Type} (d : list (string * V)) (k k' : string) (v : V) :
  dict_get (d ++ [(k, v)]) k' =
  match dict_get d k' with
  | Some x => Some x
  | None => if decide (k = k') then Some v else None
  end.
Proof.
  induction d as [|[k0 v0] d IH]; cbn [app dict_get]; [reflexivity|].
  now destruct (decide (k0 = k')).
Qed.

Lemma dict_get_append_to {A : Type} (d : list (string * list A)) (k k' : string) (x : A) :
  dict_get (dict_append_to d k x) k' =
  if decide (k = k') then (fun l => l ++ [x]) <$> dict_get d k' else dict_get d k'.
Proof.
  induction d as [|[k0 l0] d IH]; cbn [dict_append_to dict_get].
  - now destruct (decide (k = k')).
  - destruct (decide (k0 = k)) as [->|Hk0]; cbn [dict_get].
    + destruct (decide (k = k')); reflexivity.
    + destruct (decide (k0 = k')) as [->|Hk0'].
      * now rewrite decide_False by congruence.
      * exact IH.
Qed.

Lemma dict_keys_append_to {A : Type} (d : list (string * list A)) (k : string) (x : A) :
  (dict_append_to d k x).*1 = d.*1.
Proof.
  induction d as [|[k0 l0] d IH]; [reflexivity|]. cbn [dict_append_to].
  destruct (decide (k0 = k)); cbn; [reflexivity|now rewrite IH].
Qed.

Lemma dict_get_None {V : Type} (d : list (string * V)) (k : string) :
  dict_get d k = None <-> k ∉ d.*1.
Proof.
  induction d as [|[k0 v0] d IH]; cbn [dict_get].
  - split; [intros _; apply not_elem_of_nil | reflexivity].
  - rewrite fmap_cons, not_elem_of_cons. cbn [fst].
    destruct (decide (k0 = k)) as [->|Hne].
    + split; [discriminate | now intros [? _]].
    + rewrite IH. split; [intros H; split; [congruence|exact H] | now intros [_ H]].
Qed.

Lemma dict_get_elem_of {V : Type} (d : list (string * V)) (k : string) (v : V) :
  dict_get d k = Some v -> (k, v) ∈ d.
Proof.
  induction d as [|[k0 v0] d IH]; cbn [dict_get]; [discriminate|].
  destruct (decide (k0 = k)) as [->|Hne].
  - intros [= ->]. apply elem_of_cons; auto.
  - intros H. apply elem_of_cons; auto.
Qed.

Lemma dict_elem_of_get {V : Type} (d : list (string * V)) (k : string) (v : V) :
  NoDup d.*1 -> (k, v) ∈ d -> dict_get d k = Some v.
Proof.
  induction d as [|[k0 v0] d IH]; intros Hnd Hin; [now apply elem_of_nil in Hin|].
  rewrite fmap_cons in Hnd. apply NoDup_cons in Hnd as [Hk0 Hnd]. cbn [fst] in Hk0.
  cbn [dict_get]. apply elem_of_cons in Hin as [[= <- <-]|Hin].
  - now rewrite decide_True.
  - destruct (decide (k0 = k)) as [->|Hne]; [|now apply IH].
    exfalso. apply Hk0. now apply (list_elem_of_fmap_2 fst _ (k, v)).
Qed.

Section MethodsByTypeFacts.

Variable strip : string -> string.

Lemma group_body_get (d : list (string * list MethodRow.t)) (m : MethodRow.t) (k : string) :
  dict_get (group_body strip d m) k =
  if decide (type_key strip m = k) then Some (default [] (dict_get d k) ++ [m])
  else dict_get d k.
Proof.
  unfold group_body. cbv zeta.
  destruct (dict_get d (type_key strip m)) as [l|] eqn:E; rewrite dict_get_append_to.
  - destruct (decide (type_key strip m = k)) as [<-|]; [now rewrite E | reflexivity].
  - rewrite dict_get_snoc.
    destruct (decide (type_key strip m = k)) as [<-|Hne]; [now rewrite E|].
    now destruct (dict_get d k).
Qed.

Lemma group_body_keys (d : list (string * list MethodRow.t)) (m : MethodRow.t) :
  (group_body strip d m).*1 =
  d.*1 ++ (if decide (type_key strip m ∈ d.*1) then [] else [type_key strip m]).
Proof.
  unfold group_body. cbv zeta. rewrite dict_keys_append_to.
  destruct (dict_get d (type_key strip m)) as [l|] eqn:E.
  - rewrite decide_True; [now rewrite app_nil_r|].
    destruct (decide (type_key strip m ∈ d.*1)) as [H|H]; [exact H|].
    apply dict_get_None in H. congruence.
  - apply dict_get_None in E. rewrite decide_False by exact E.
    now rewrite fmap_app.
Qed.

Lemma group_snoc (methods : list MethodRow.t) (m : MethodRow.t) :
  group_methods_by_type strip (methods ++ [m]) =
  group_body strip (group_methods_by_type strip methods) m.
Proof. unfold group_methods_by_type. now rewrite fold_left_app. Qed.

Lemma group_get (methods : list MethodRow.t) (k : string) :
  dict_get (group_methods_by_type strip methods) k =
  match of_type strip k methods with
  | [] => None
  | l => Some l
  end.
Proof.
  induction methods as [|m methods IH] using rev_ind; [reflexivity|].
  rewrite group_snoc, group_body_get, IH. unfold of_type. rewrite filter_app.
  destruct (decide (type_key strip m = k)) as [Hk|Hk].
  - rewrite (filter_cons_True _ m []) by exact Hk.
    now destruct (filter _ methods).
  - rewrite (filter_cons_False _ m []) by exact Hk. now rewrite app_nil_r.
Qed.

Lemma first_occurrences_elem_of (l : list string) (x : string) :
  x ∈ first_occurrences l <-> x ∈ l.
Proof.
  induction l as [|y l IH]; [reflexivity|]. cbn [first_occurrences].
  rewrite !elem_of_cons, list_elem_of_filter, IH.
  destruct (decide (x = y)); tauto.
Qed.

Lemma first_occurrences_snoc (l : list string) (x : string) :
  first_occurrences (l ++ [x]) =
  first_occurrences l ++ (if decide (x ∈ l) then [] else [x]).
Proof.
  induction l as [|y l IH]; cbn [app first_occurrences].
  - rewrite decide_False by apply not_elem_of_nil. reflexivity.
  - rewrite IH, filter_app. do 2 f_equal.
    destruct (decide (x ∈ l)) as [Hin|Hin];
      destruct (decide (x ∈ y :: l)) as [Hin'|Hin']; try reflexivity.
    + exfalso. apply Hin'. apply elem_of_cons; auto.
    + apply elem_of_cons in Hin' as [->|?]; [|contradiction].
      rewrite (filter_cons_False _ y []); [reflexivity|]. intros H. now apply H.
    + rewrite (filter_cons_True _ x []); [reflexivity|].
      intros ->. apply Hin'. apply elem_of_cons; auto.
Qed.

Lemma first_occurrences_NoDup (l : list string) : NoDup (first_occurrences l).
Proof.
  induction l as [|y l IH]; cbn [first_occurrences]; [constructor|].
  apply NoDup_cons. split; [|now apply NoDup_filter].
  rewrite list_elem_of_filter. now intros [H _].
Qed.

Lemma group_keys (methods : list MethodRow.t) :
  (group_methods_by_type strip methods).*1 = first_occurrences (type_key strip <$> methods).
Proof.
  induction methods as [|m methods IH] using rev_ind; [reflexivity|].
  rewrite group_snoc, group_body_keys, fmap_app.
  change (type_key strip <$> [m]) with [type_key strip m].
  rewrite first_occurrences_snoc, IH. f_equal.
  destruct (decide (type_key strip m ∈ type_key strip <$> methods)) as [H|H].
  - rewrite decide_True; [reflexivity|]. now apply first_occurrences_elem_of.
  - rewrite decide_False; [reflexivity|]. now rewrite first_occurrences_elem_of.
Qed.

End MethodsByTypeFacts.

Lemma dict_values_append_to {A : Type} (d : list (string * list A)) (k : string) (x : A) :
  k ∈ d.*1 -> concat (dict_append_to d k x).*2 ≡ₚ x :: concat d.*2.
Proof.
  induction d as [|[k0 l0] d IH]; intros Hin; [now apply elem_of_nil in Hin|].
  cbn [dict_append_to]. destruct (decide (k0 = k)) as [->|Hne]; cbn.
  - rewrite <- app_assoc. cbn. symmetry. apply Permutation_middle.
  - rewrite fmap_cons in Hin. apply elem_of_cons in Hin as [Heq|Hin]; [cbn in Heq; congruence|].
    rewrite (IH Hin). symmetry. apply Permutation_middle.
Qed.

Lemma group_body_values strip (d : list (string * list MethodRow.t)) (m : MethodRow.t) :
  concat (group_body strip d m).*2 ≡ₚ m :: concat d.*2.
Proof.
  unfold group_body. cbv zeta.
  destruct (dict_get d (type_key strip m)) as [l|] eqn:E.
  - apply dict_values_append_to.
    destruct (decide (type_key strip m ∈ d.*1)) as [H|H]; [exact H|].
    apply dict_get_None in H. congruence.
  - rewrite dict_values_append_to.
    + now rewrite fmap_app, concat_app, app_nil_r.
    + rewrite fmap_app. apply elem_of_app. right. apply elem_of_cons; auto.
Qed.

(** X9. An entry [(k, l)] is in the result of [group_methods_by_type]
    exactly when [l] is the list of all methods whose type (stripped, or
    "Uncategorized" when absent or empty) is [k], in their input order, and
    that list is not empty. *)
Theorem group_entries strip (methods : list MethodRow.t) (k : string) (l : list MethodRow.t) :
  (k, l) ∈ group_methods_by_type strip methods <->
  l = of_type strip k methods /\ l <> [].
Proof.
  pose proof (group_get strip methods k) as Hget. split.
  - intros Hin. apply dict_elem_of_get in Hin;
      [|rewrite group_keys; apply first_occurrences_NoDup].
    rewrite Hin in Hget. destruct (of_type strip k methods); [discriminate|].
    injection Hget as ->. split; [reflexivity|discriminate].
  - intros [-> Hne]. apply dict_get_elem_of. rewrite Hget.
    now destruct (of_type strip k methods).
Qed.

(** X10. The keys of the result are distinct, and they stand in the order
    in which their first method occurs in the input. *)
Theorem group_key_order strip (methods : list MethodRow.t) :
  (group_methods_by_type strip methods).*1 = first_occurrences (type_key strip <$> methods) /\
  NoDup (group_methods_by_type strip methods).*1.
Proof.
  split; [apply group_keys|]. rewrite group_keys. apply first_occurrences_NoDup.
Qed.

(** X11. Every method is listed under exactly one type, once: the lists of
    the result, one after the other, are a permutation of the input. *)
Theorem group_partition strip (methods : list MethodRow.t) :
  concat (group_methods_by_type strip methods).*2 ≡ₚ methods.
Proof.
  induction methods as [|m methods IH] using rev_ind; [reflexivity|].
  rewrite group_snoc, group_body_values, IH. apply Permutation_cons_append.
Qed.

(** A type made of blanks only is not empty, so it is grouped under its
    stripped text, the empty string, not under "Uncategorized". *)
Example blank_type_key :
  type_key strip_spaces (MethodRow.mk 6 (Some "f") (Some "  ") None) = ""%string /\
  (group_methods_by_type strip_spaces demo_rows).*1 = ["Model"; "Uncategorized"; "Test"]%string.
Proof. split; reflexivity. Qed.

(** ** The file watcher *)

Lemma ends_with_tilde_not_xlsx (s : string) :
  ends_with s "~$" = true -> ends_with s ".xlsx" = false.
Proof.
  unfold ends_with. change (String.rev "~$") with "$~"%string.
  change (String.rev ".xlsx") with "xslx."%string.
  destruct (String.rev s) as [|c r]; cbn [String.prefix]; [reflexivity|].
  destruct (ascii_dec "$" c) as [<-|]; [|discriminate].
  intros _. now destruct (ascii_dec "x" "$").
Qed.

(** X12. [on_modified] calls [process_file] exactly when the path ends in
    ".xlsx", is the monitored file, and the clock reads more than 5 seconds
    after the last call; it then records that reading.  Otherwise the
    handler is unchanged.  The test for a path ending in "~$" never decides
    anything. *)
Theorem on_modified_cases abspath (self : Handler.t) (src_path : string) (current_time : float) :
  on_modified abspath self src_path current_time =
  if ends_with src_path ".xlsx" &&
     bool_decide (abspath src_path = Handler.file_path self) &&
     (debounce_interval <? current_time - Handler.last_trigger_time self)%float
  then (Handler.mk (Handler.file_path self) current_time, true)
  else (self, false).
Proof.
  unfold on_modified.
  destruct (ends_with src_path "~$") eqn:Ht.
  - now rewrite (ends_with_tilde_not_xlsx _ Ht).
  - cbn [orb]. destruct (ends_with src_path ".xlsx"); cbn [negb andb]; [|reflexivity].
    destruct (decide (abspath src_path = Handler.file_path self)) as [He|He].
    + now rewrite bool_decide_eq_true_2 by exact He.
    + now rewrite bool_decide_eq_false_2 by exact He.
Qed.

(** X13. Over any sequence of events, two successive calls of
    [process_file] are made at clock readings more than 5 seconds apart,
    and the first more than 5 seconds after the handler's initial reading. *)
Theorem debounce_spacing abspath (self : Handler.t) (events : list (string * float)) :
  spaced (Handler.last_trigger_time self) (snd (handle_events abspath self events)).
Proof.
  revert self. induction events as [|[src_path current_time] events IH]; intros self; [exact I|].
  cbn [handle_events]. unfold on_modified.
  destruct (ends_with src_path "~$" || negb (ends_with src_path ".xlsx")).
  { specialize (IH self). now destruct (handle_events abspath self events). }
  destruct (decide (abspath src_path = Handler.file_path self)).
  2: { specialize (IH self). now destruct (handle_events abspath self events). }
  destruct (debounce_interval <? current_time - Handler.last_trigger_time self)%float eqn:Hc.
  2: { specialize (IH self). now destruct (handle_events abspath self events). }
  specialize (IH (Handler.mk (Handler.file_path self) current_time)).
  destruct (handle_events abspath _ events) as [self' times]. cbn [snd spaced] in *.
  now split.
Qed.

(** ** Reading the workbook *)

Section ExtractionFacts.

Variable strip : string -> string.

Lemma extract_row_raises (acc : list MethodData.t) (row : Row.t) :
  row_raises row = true -> extract_row strip acc row = None.
Proof.
  unfold row_raises, extract_row. destruct row as [t n ty ma].
  cbn [Row.task_code Row.method_name Row.method_type Row.maturity].
  destruct t, n, ty, ma; cbn; try discriminate; reflexivity.
Qed.

Lemma extract_row_Some (acc l : list MethodData.t) (row : Row.t) :
  extract_row strip acc row = Some l ->
  row_raises row = false /\ l = acc ++ option_list (row_data strip row).
Proof.
  unfold row_raises, extract_row, row_data. destruct row as [t n ty ma].
  cbn [Row.task_code Row.method_name Row.method_type Row.maturity].
  destruct t, n, ty, ma; cbn; try discriminate; intros [= <-];
    (split; [reflexivity|]); rewrite ?app_nil_r; reflexivity.
Qed.

Lemma extract_rows_Some (rows : list Row.t) :
  forall acc l,
    extract_rows strip acc rows = Some l ->
    Forall (fun row => row_raises row = false) rows /\ l = acc ++ omap (row_data strip) rows.
Proof.
  induction rows as [|row rows IH]; intros acc l H; cbn [extract_rows] in H.
  - injection H as <-. split; [constructor|]. now rewrite app_nil_r.
  - destruct (extract_row strip acc row) as [acc'|] eqn:Hrow; [|discriminate].
    cbn in H. apply extract_row_Some in Hrow as [Hok ->].
    apply IH in H as [Hall ->]. split; [now constructor|].
    rewrite <- app_assoc. f_equal. cbn [omap list_omap].
    now destruct (row_data strip row).
Qed.

Lemma extract_rows_None (rows : list Row.t) :
  forall acc, extract_rows strip acc rows = None ->
    Exists (fun row => row_raises row = true) rows.
Proof.
  induction rows as [|row rows IH]; intros acc H; cbn [extract_rows] in H; [discriminate|].
  destruct (row_raises row) eqn:Hr; [now left|]. right.
  destruct (extract_row strip acc row) as [acc'|] eqn:Hrow; [now apply (IH acc')|].
  unfold row_raises, extract_row in *. destruct row as [t n ty ma].
  cbn [Row.task_code Row.method_name Row.method_type Row.maturity] in *.
  destruct t, n, ty, ma; cbn in *; discriminate.
Qed.

Lemma extract_sheet_Some (acc l : list MethodData.t) (sheet : Sheet.t) :
  extract_sheet strip acc sheet = Some l ->
  (relevant sheet = true -> Forall (fun row => row_raises row = false) (Sheet.rows sheet)) /\
  l = acc ++ sheet_data strip sheet.
Proof.
  unfold extract_sheet, sheet_data, relevant.
  destruct (String.prefix "Methods T" (Sheet.name sheet)); cbn [andb].
  - destruct (forallb _ required_columns); cbn [negb].
    + intros H. apply extract_rows_Some in H as [Hall ->]. auto.
    + intros [= <-]. split; [discriminate|]. now rewrite app_nil_r.
  - intros [= <-]. split; [discriminate|]. now rewrite app_nil_r.
Qed.

Lemma extract_sheets_Some (sheets : list Sheet.t) :
  forall acc l,
    extract_sheets strip acc sheets = Some l ->
    no_row_raises sheets /\ l = acc ++ concat (sheet_data strip <$> sheets).
Proof.
  unfold no_row_raises.
  induction sheets as [|sheet sheets IH]; intros acc l H; cbn [extract_sheets] in H.
  - injection H as <-. split; [constructor|]. now rewrite app_nil_r.
  - destruct (extract_sheet strip acc sheet) as [acc'|] eqn:Hs; [|discriminate].
    cbn in H. apply extract_sheet_Some in Hs as [Hok ->].
    apply IH in H as [Hall ->]. split; [now constructor|].
    now rewrite <- app_assoc.
Qed.

Lemma extract_sheets_None (sheets : list Sheet.t) :
  forall acc, extract_sheets strip acc sheets = None ->
    Exists (fun sheet => relevant sheet = true /\
                         Exists (fun row => row_raises row = true) (Sheet.rows sheet)) sheets.
Proof.
  induction sheets as [|sheet sheets IH]; intros acc H; cbn [extract_sheets] in H; [discriminate|].
  destruct (extract_sheet strip acc sheet) as [acc'|] eqn:Hs.
  - right. now apply (IH acc').
  - left. unfold extract_sheet, relevant in *.
    destruct (String.prefix "Methods T" (Sheet.name sheet)); [|discriminate].
    destruct (forallb _ required_columns); [|discriminate].
    split; [reflexivity|]. now apply (extract_rows_None _ acc).
Qed.

End ExtractionFacts.

(** X14. One cell that is neither missing nor a string, in a row with a
    task code and a name of a sheet that is read, empties the whole
    result: the methods read before it are dropped too. *)
Theorem extraction_all_or_nothing strip (sheets : list Sheet.t) (sheet : Sheet.t) (row : Row.t) :
  sheet ∈ sheets ->
  relevant sheet = true ->
  row ∈ Sheet.rows sheet ->
  row_raises row = true ->
  extract_methods_from_excel strip (Some sheets) = [].
Proof.
  intros Hsheet Hrel Hrow Hraises. unfold extract_methods_from_excel.
  destruct (extract_sheets strip [] sheets) as [l|] eqn:H; [|reflexivity].
  apply extract_sheets_Some in H as [Hall _]. exfalso.
  unfold no_row_raises in Hall. rewrite Forall_forall in Hall.
  specialize (Hall sheet Hsheet Hrel). rewrite Forall_forall in Hall.
  specialize (Hall row Hrow). congruence.
Qed.

Lemma extraction_all_or_nothing_witness :
  extract_methods_from_excel strip_spaces
    (Some (demo_workbook ++
           [Sheet.mk "Methods T3" required_columns [Row.mk (Text "T3") (Text "m") Null Other]]))
  = [].
Proof.
  apply (extraction_all_or_nothing strip_spaces _
           (Sheet.mk "Methods T3" required_columns [Row.mk (Text "T3") (Text "m") Null Other])
           (Row.mk (Text "T3") (Text "m") Null Other)).
  - apply elem_of_app. right. apply elem_of_cons; auto.
  - reflexivity.
  - apply elem_of_cons; auto.
  - reflexivity.
Defined.

(** X15. When no row raises, the result is, in workbook and row order, one
    record for every row with a task code and a name in the sheets named
    "Methods T..." that hold the four required columns: both stripped, the
    type stripped or "Uncategorized", the maturity stripped or "TRL 5".
    Other sheets and rows without task code or name contribute nothing. *)
Theorem extraction_result strip (sheets : list Sheet.t) :
  no_row_raises sheets ->
  extract_methods_from_excel strip (Some sheets) = concat (sheet_data strip <$> sheets).
Proof.
  intros Hok. unfold extract_methods_from_excel.
  destruct (extract_sheets strip [] sheets) as [l|] eqn:H.
  - now apply extract_sheets_Some in H as [_ ->].
  - exfalso. apply extract_sheets_None in H. apply Exists_exists in H as (sheet & Hin & Hrel & Hex).
    unfold no_row_raises in Hok. rewrite Forall_forall in Hok.
    specialize (Hok sheet Hin Hrel). apply Exists_exists in Hex as (row & Hrow & Hr).
    rewrite Forall_forall in Hok. specialize (Hok row Hrow). congruence.
Qed.

Lemma extraction_result_witness :
  extract_methods_from_excel strip_spaces (Some demo_workbook) =
  concat (sheet_data strip_spaces <$> demo_workbook).
Proof.
  apply (extraction_result strip_spaces demo_workbook).
  repeat constructor; discriminate.
Defined.

(** The demo workbook: the sheet "Readme" and the sheet without the
    required columns are not read, the heading row is skipped, and the
    missing type and maturity get their defaults. *)
Example demo_extraction :
  extract_methods_from_excel strip_spaces (Some demo_workbook) =
  [MethodData.mk "T1.1" "CFD model" "Model" "TRL 5";
   MethodData.mk "T1.2" "Stack test" "Uncategorized" "TRL 7"].
Proof. reflexivity. Qed.
